(** * Heading-to-page reconciliation (challenge-1a.py)

    A shallow embedding of the page-resolution core of [challenge-1a.py]:
    the two text normalisers, [search_heading_in_pdf_content],
    [estimate_page_from_surrounding_headings] and the loop of
    [extract_headings_from_html] that threads [last_found_page].

    Conventions.
    - Python [int] is [Z]; page numbers, the cursor and list lengths that are
      compared with page numbers are all [Z] or [nat] as the code uses them.
    - Python [str] is [string]; a character is an 8-bit [ascii] read as the
      code point U+0000..U+00FF, classified the way CPython classifies these
      code points for [\s], [\w], [\d], [str.lower], [str.strip] and
      [str.split].
    - the page corpus, a [dict] from page number to page text, is a
      [gmap Z string].
    - operations that raise in Python (subscripts, [max] of an empty
      sequence, division) are written in the [result] monad, so that
      "returns without raising" is a statement of its own. *)

From Stdlib Require Import ZArith QArith Ascii String Lia.
From stdpp Require Import base option list sorting strings gmap.

Local Open Scope string_scope.
Local Open Scope list_scope.
Local Open Scope Z_scope.

(** ** Exceptions *)

Inductive exn : Type :=
  | KeyError
  | IndexError
  | ValueError
  | ZeroDivisionError.

Inductive result (A : Type) : Type :=
  | Ok (a : A)
  | Raise (e : exn).
Arguments Ok {A} a.
Arguments Raise {A} e.

Global Instance result_ret : MRet result := fun A a => Ok a.
Global Instance result_bind : MBind result := fun A B f m =>
  match m with
  | Ok a => f a
  | Raise e => Raise e
  end.

(** ** Characters and the Python string operations the code calls *)

Module Text.

Definition code (c : ascii) : N := N_of_ascii c.

Definition between (lo hi : N) (c : ascii) : bool :=
  ((lo <=? code c) && (code c <=? hi))%N.

Definition is_code (n : N) (c : ascii) : bool := (code c =? n)%N.

(** [str.isspace] on one code point; it is what [\s], [strip] and [split]
    test: TAB..CR, FS..US, SPACE, NEL and NBSP. *)
Definition is_space (c : ascii) : bool :=
  between 9 13 c || between 28 32 c || is_code 133 c || is_code 160 c.

(** [\d]: the decimal digits. *)
Definition is_digit (c : ascii) : bool := between 48 57 c.

Definition is_alpha (c : ascii) : bool :=
  between 65 90 c || between 97 122 c
  || is_code 170 c || is_code 181 c || is_code 186 c
  || between 192 214 c || between 216 246 c || between 248 255 c.

(** [\w]: alphanumeric in the sense of [str.isalnum], or the underscore.
    Superscript digits and the vulgar fractions count as numeric. *)
Definition is_word (c : ascii) : bool :=
  is_alpha c || is_digit c
  || is_code 178 c || is_code 179 c || is_code 185 c || between 188 190 c
  || is_code 95 c.

Definition lower_char (c : ascii) : ascii :=
  if between 65 90 c || between 192 214 c || between 216 222 c
  then ascii_of_N (code c + 32)
  else c.

Fixpoint map_chars (f : ascii -> ascii) (s : string) : string :=
  match s with
  | EmptyString => EmptyString
  | String c s' => String (f c) (map_chars f s')
  end.

(** [text.lower()] *)
Definition str_lower (s : string) : string := map_chars lower_char s.

(** [re.sub(r'\s+', ' ', text)]: every maximal run of whitespace becomes
    one space.  [in_run] says that the previous character was whitespace. *)
Fixpoint sub_space_runs_from (in_run : bool) (s : string) : string :=
  match s with
  | EmptyString => EmptyString
  | String c s' =>
      if is_space c
      then (if in_run then sub_space_runs_from true s'
            else String " " (sub_space_runs_from true s'))
      else String c (sub_space_runs_from false s')
  end.

Definition sub_space_runs (s : string) : string :=
  sub_space_runs_from false s.

(** [re.sub(r'[^\w\s]', ' ', text)] *)
Definition sub_punctuation (s : string) : string :=
  map_chars (fun c => if is_word c || is_space c then c else " "%char) s.

(** [re.sub(r'\d+', '', text)] *)
Fixpoint sub_digit_runs (s : string) : string :=
  match s with
  | EmptyString => EmptyString
  | String c s' =>
      if is_digit c then sub_digit_runs s' else String c (sub_digit_runs s')
  end.

Fixpoint str_lstrip (s : string) : string :=
  match s with
  | EmptyString => EmptyString
  | String c s' => if is_space c then str_lstrip s' else s
  end.

Fixpoint str_rstrip (s : string) : string :=
  match s with
  | EmptyString => EmptyString
  | String c s' =>
      match str_rstrip s' with
      | EmptyString => if is_space c then EmptyString else String c EmptyString
      | r => String c r
      end
  end.

(** [text.strip()] *)
Definition str_strip (s : string) : string := str_rstrip (str_lstrip s).

(** [text.split()]: the maximal runs of non-whitespace, in order.  [word]
    is the run read so far. *)
Fixpoint str_split_from (word : string) (s : string) : list string :=
  match s with
  | EmptyString => match word with EmptyString => [] | _ => [word] end
  | String c s' =>
      if is_space c
      then match word with
           | EmptyString => str_split_from EmptyString s'
           | _ => word :: str_split_from EmptyString s'
           end
      else str_split_from (word +:+ String c EmptyString) s'
  end.

Definition str_split (s : string) : list string :=
  str_split_from EmptyString s.

(** [sep.join(parts)] *)
Fixpoint str_join (sep : string) (parts : list string) : string :=
  match parts with
  | [] => EmptyString
  | [w] => w
  | w :: ws => w +:+ sep +:+ str_join sep ws
  end.

(** [needle in hay] *)
Fixpoint str_contains (needle hay : string) : bool :=
  String.prefix needle hay
  || match hay with
     | EmptyString => false
     | String _ hay' => str_contains needle hay'
     end.

(** [len(text)] *)
Definition str_len (s : string) : Z := Z.of_nat (String.length s).

End Text.

Import Text.

(** ** The two normalisers *)

(** [clean_text_for_search] *)
Definition clean_text_for_search (text : string) : string :=
  let text := str_lower text in
  let text := sub_space_runs text in
  let text := sub_punctuation text in
  str_strip (sub_space_runs text).

(** [remove_numbers_and_special_chars] *)
Definition remove_numbers_and_special_chars (text : string) : string :=
  let text := sub_digit_runs text in
  let text := sub_punctuation text in
  str_strip (sub_space_runs text).

(** ** Data model *)

(** The heading elements that [soup.find_all(['h1', ..., 'h6'])] returns. *)
Inductive tag_name : Type := h1 | h2 | h3 | h4 | h5 | h6.

(** [heading.name.upper()] *)
Definition name_upper (n : tag_name) : string :=
  match n with
  | h1 => "H1" | h2 => "H2" | h3 => "H3"
  | h4 => "H4" | h5 => "H5" | h6 => "H6"
  end.

(** A heading element: its tag name and the text nodes below it, in
    document order. *)
Record heading_tag : Type := HeadingTag {
  name : tag_name;
  strings : list string
}.

(** [heading.get_text(strip=True)]: every text node is stripped, the empty
    ones are dropped and the rest are joined with the empty separator. *)
Definition get_text_strip (heading : heading_tag) : string :=
  str_join "" (filter (fun s => s <> "") (str_strip <$> strings heading)).

(** One entry of [outline]: the dict [{"level", "text", "page"}]. *)
Record entry : Type := Entry {
  level : string;
  text : string;
  page : option Z
}.

(** [headings_data]: the dict [{"title", "outline"}]. *)
Record headings_data : Type := HeadingsData {
  title : string;
  outline : list entry
}.

(** ** Python container operations *)

(** [d[k]] on a dict *)
Definition getitem (d : gmap Z string) (k : Z) : result string :=
  match d !! k with
  | Some v => Ok v
  | None => Raise KeyError
  end.

(** [l[i]] on a list, for an index that is not negative *)
Definition subscript {A} (l : list A) (i : nat) : result A :=
  match l !! i with
  | Some x => Ok x
  | None => Raise IndexError
  end.

(** [sorted(d.keys())] *)
Definition sorted_keys (d : gmap Z string) : list Z :=
  merge_sort Z.le (map_to_list d).*1.

(** [max(d.keys())] *)
Definition max_key (d : gmap Z string) : result Z :=
  match (map_to_list d).*1 with
  | [] => Raise ValueError
  | k :: ks => Ok (foldl Z.max k ks)
  end.

(** [a / b] on two ints.  The quotient is kept exact: the code compares it
    with the constant [0.7] and with other quotients of the same
    denominator, and for a denominator below 10^15 the correctly rounded
    double of [a / b] compares with the double [0.7] exactly as [a / b]
    compares with 7/10, and two such quotients round to equal doubles only
    when they are equal. *)
Definition true_div (a b : Z) : result Q :=
  if decide (b = 0) then Raise ZeroDivisionError
  else Ok (a # Z.to_pos b).

(** A [for] loop that threads the variables it assigns. *)
Fixpoint for_each {A S} (body : A -> S -> result S) (xs : list A) (acc : S)
  : result S :=
  match xs with
  | [] => Ok acc
  | x :: xs' => acc' ← body x acc; for_each body xs' acc'
  end.

(** [l.sort(key=lambda x: x[1], reverse=True)].  Python's sort is stable,
    also with [reverse=True]: entries with equal keys keep their order.
    There is one such arrangement of a list, and this insertion sort
    computes it. *)
Fixpoint insert_by_ratio (x : Z * Q) (l : list (Z * Q)) : list (Z * Q) :=
  match l with
  | [] => [x]
  | y :: l' =>
      if Qle_bool y.2 x.2 then x :: y :: l'
      else y :: insert_by_ratio x l'
  end.

Definition sort_by_ratio_desc (l : list (Z * Q)) : list (Z * Q) :=
  foldr insert_by_ratio [] l.

(** ** The Heading Locator: [search_heading_in_pdf_content] *)

(** [clean_heading_no_numbers] *)
Definition clean_heading_no_numbers (heading_text : string) : string :=
  remove_numbers_and_special_chars (clean_text_for_search heading_text).

(** [heading_words] *)
Definition heading_words (heading_text : string) : list string :=
  str_split (clean_heading_no_numbers heading_text).

(** [start_page] *)
Definition start_page (last_found_page : Z) : Z :=
  if decide (0 < last_found_page) then last_found_page + 1 else 1.

(** [pages_to_search] *)
Definition pages_to_search (pdf_content_by_page : gmap Z string)
    (last_found_page : Z) : list Z :=
  filter (fun p => start_page last_found_page <= p)
         (sorted_keys pdf_content_by_page).

(** The selection that follows each strategy's loop: the only candidate,
    else the second one on the first search, else the first one. *)
Definition select {A} (last_found_page : Z) (matches : list A) : result A :=
  if decide (length matches = 1%nat) then subscript matches 0
  else if decide (last_found_page = 0 /\ (1 < length matches)%nat)
       then subscript matches 1
       else subscript matches 0.

(** Strategy 1, the loop that fills [exact_matches]. *)
Definition exact_matches (needle : string) (pdf_content_by_page : gmap Z string)
    (pages : list Z) : result (list Z) :=
  for_each (fun page_num acc =>
      content ← getitem pdf_content_by_page page_num;
      let clean_content := clean_text_for_search content in
      if str_contains needle clean_content
      then Ok (acc ++ [page_num]) else Ok acc)
    pages [].

(** [sum(1 for word in heading_words if word in clean_content)] *)
Definition word_matches (words : list string) (clean_content : string) : Z :=
  Z.of_nat (length (filter (fun w => Is_true (str_contains w clean_content)) words)).

(** Strategy 2, the loop that fills [partial_matches]. *)
Definition partial_matches (words : list string)
    (pdf_content_by_page : gmap Z string) (pages : list Z)
  : result (list (Z * Q)) :=
  for_each (fun page_num acc =>
      content ← getitem pdf_content_by_page page_num;
      let clean_content := clean_text_for_search content in
      match_ratio ← true_div (word_matches words clean_content)
                             (Z.of_nat (length words));
      if Qle_bool (7 # 10) match_ratio
      then Ok (acc ++ [(page_num, match_ratio)]) else Ok acc)
    pages [].

(** The inner loop of strategy 3: some three consecutive heading words,
    joined by one space, occur in the page. *)
Definition phrase_found (words : list string) (clean_content : string) : bool :=
  existsb (fun i => str_contains (str_join " " (take 3 (drop i words)))
                                 clean_content)
          (seq 0 (length words - 2)).

(** Strategy 3, the loop that fills [sequence_matches]. *)
Definition sequence_matches (words : list string)
    (pdf_content_by_page : gmap Z string) (pages : list Z) : result (list Z) :=
  for_each (fun page_num acc =>
      content ← getitem pdf_content_by_page page_num;
      let clean_content := clean_text_for_search content in
      if phrase_found words clean_content
      then Ok (acc ++ [page_num]) else Ok acc)
    pages [].

Definition search_heading_in_pdf_content (heading_text : string)
    (pdf_content_by_page : gmap Z string) (last_found_page : Z)
  : result (option Z) :=
  if decide (pdf_content_by_page = ∅) then Ok None else
  let needle := clean_heading_no_numbers heading_text in
  let words := heading_words heading_text in
  let pages := pages_to_search pdf_content_by_page last_found_page in
  exact ← exact_matches needle pdf_content_by_page pages;
  match exact with
  | _ :: _ => selected_page ← select last_found_page exact;
              Ok (Some selected_page)
  | [] =>
  partial ← (if decide (2 <= length words)%nat
             then partial_matches words pdf_content_by_page pages
             else Ok []);
  match partial with
  | _ :: _ => selected ← select last_found_page (sort_by_ratio_desc partial);
              Ok (Some selected.1)
  | [] =>
  sequence ← (if decide (3 <= length words)%nat
              then sequence_matches words pdf_content_by_page pages
              else Ok []);
  match sequence with
  | _ :: _ => selected_page ← select last_found_page sequence;
              Ok (Some selected_page)
  | [] => Ok None
  end end end.

(** ** The Fallback Estimator: [estimate_page_from_surrounding_headings] *)

(** The truth value Python gives to a page: [None] and [0] are false. *)
Definition truthy (p : option Z) : bool :=
  match p with
  | Some n => negb (n =? 0)
  | None => false
  end.

(** [max(pdf_content_by_page.keys()) if pdf_content_by_page else 6] *)
Definition max_page (pdf_content_by_page : gmap Z string) : result Z :=
  if decide (pdf_content_by_page = ∅) then Ok 6
  else max_key pdf_content_by_page.

(** The loop over [reversed(existing_outline)], given the reversed list: the
    page of the first entry whose page is true, [None] when the loop ends
    without a [break]. *)
Fixpoint last_outline_page (reversed_outline : list entry) : option Z :=
  match reversed_outline with
  | [] => None
  | heading :: rest =>
      if truthy (page heading) then page heading
      else last_outline_page rest
  end.

Definition estimate_page_from_surrounding_headings (heading_text : string)
    (existing_outline : list entry) (pdf_content_by_page : gmap Z string)
    (last_found_page : Z) : result Z :=
  match existing_outline with
  | [] => Ok 1
  | _ :: _ =>
      if decide (0 < last_found_page) then
        max_page ← max_page pdf_content_by_page;
        Ok (Z.min (last_found_page + 1) max_page)
      else
        match last_outline_page (reverse existing_outline) with
        | Some p =>
            if truthy (Some p) then
              max_page ← max_page pdf_content_by_page;
              Ok (Z.min (p + 1) max_page)
            else Ok 1
        | None => Ok 1
        end
  end.

(** ** The Outline Builder: the loop of [extract_headings_from_html] *)

(** How a page number was obtained: by the Locator, or by the Fallback
    Estimator after the Locator returned [None]. *)
Inductive resolution : Type := Located | Estimated.

(** The two calls at the head of the loop body. *)
Definition resolve_page (text : string) (outline : list entry)
    (pdf_content_by_page : gmap Z string) (last_found_page : Z)
  : result (Z * resolution) :=
  page_number ← search_heading_in_pdf_content text pdf_content_by_page
                                              last_found_page;
  match page_number with
  | Some p => Ok (p, Located)
  | None =>
      p ← estimate_page_from_surrounding_headings text outline
            pdf_content_by_page last_found_page;
      Ok (p, Estimated)
  end.

(** [if text and len(text) > 2] *)
Definition meaningful (text : string) : bool :=
  negb (String.eqb text "") && (2 <? str_len text).

(** [if page_number and page_number > last_found_page] *)
Definition advance (last_found_page page_number : Z) : Z :=
  if truthy (Some page_number) && (last_found_page <? page_number)
  then page_number else last_found_page.

(** One iteration of the loop, on the loop's variables [outline] and
    [last_found_page] together with the log of resolutions, which records
    for each appended entry how its page was obtained. *)
Definition process_logged (pdf_content_by_page : gmap Z string)
    (heading : heading_tag) (st : list (entry * resolution) * Z)
  : result (list (entry * resolution) * Z) :=
  let '(logged, last_found_page) := st in
  let level := name_upper (name heading) in
  let text := get_text_strip heading in
  if meaningful text then
    '(page_number, how) ← resolve_page text logged.*1 pdf_content_by_page
                                       last_found_page;
    Ok (logged ++ [(Entry level text (Some page_number), how)],
        advance last_found_page page_number)
  else Ok st.

(** One iteration of the loop as the code has it. *)
Definition process_heading (pdf_content_by_page : gmap Z string)
    (heading : heading_tag) (st : list entry * Z) : result (list entry * Z) :=
  let '(outline, last_found_page) := st in
  let level := name_upper (name heading) in
  let text := get_text_strip heading in
  if meaningful text then
    '(page_number, _) ← resolve_page text outline pdf_content_by_page
                                     last_found_page;
    Ok (outline ++ [Entry level text (Some page_number)],
        advance last_found_page page_number)
  else Ok st.

(** The loop from a given state. *)
Definition build_outline (pdf_content_by_page : gmap Z string)
    (heading_tags : list heading_tag) (st : list entry * Z)
  : result (list entry * Z) :=
  for_each (process_heading pdf_content_by_page) heading_tags st.

Definition build_logged (pdf_content_by_page : gmap Z string)
    (heading_tags : list heading_tag) (st : list (entry * resolution) * Z)
  : result (list (entry * resolution) * Z) :=
  for_each (process_logged pdf_content_by_page) heading_tags st.

(** [extract_headings_from_html], given what its collaborators return: the
    title of [extract_document_title], the pages of
    [extract_pdf_content_by_pages] and the heading elements of
    [soup.find_all]. *)
Definition extract_headings_from_html (title : string)
    (pdf_content_by_page : gmap Z string) (heading_tags : list heading_tag)
  : result headings_data :=
  '(outline, _) ← build_outline pdf_content_by_page heading_tags ([], 0);
  Ok (HeadingsData title outline).

(** The same pass with its log. *)
Definition extract_logged (pdf_content_by_page : gmap Z string)
    (heading_tags : list heading_tag) : result (list (entry * resolution)) :=
  '(logged, _) ← build_logged pdf_content_by_page heading_tags ([], 0);
  Ok logged.

(** A corpus written as a Python dict display. *)
Definition corpus (l : list (Z * string)) : gmap Z string := list_to_map l.

(** ** The Page Corpus: [extract_pdf_content_by_pages] *)

(** [enumerate(documents)], counting from [i]. *)
Fixpoint enumerate_from {A} (i : Z) (l : list A) : list (Z * A) :=
  match l with
  | [] => []
  | x :: l' => (i, x) :: enumerate_from (i + 1) l'
  end.

(** [extract_pdf_content_by_pages], given what [loader.load()] yields: the
    page contents of the documents, in order, or [None] when the import or
    the load raises, which the two [except] clauses turn into the empty
    dict. *)
Definition extract_pdf_content_by_pages (loaded : option (list string))
  : gmap Z string :=
  match loaded with
  | Some documents =>
      foldl (fun pdf_content_by_page '(i, page_content) =>
               let page_num := i + 1 in
               <[page_num := page_content]> pdf_content_by_page)
            ∅ (enumerate_from 0 documents)
  | None => ∅
  end.

(** ** Vocabulary of the properties *)

(** The test of strategy 1 on page [p]: the page exists and the cleaned
    heading occurs in its cleaned text. *)
Definition exact_on (heading_text : string) (pdf_content_by_page : gmap Z string)
    (p : Z) : bool :=
  match pdf_content_by_page !! p with
  | Some content =>
      str_contains (clean_heading_no_numbers heading_text)
                   (clean_text_for_search content)
  | None => false
  end.

(** The fraction strategy 2 computes on page [p]. *)
Definition ratio_on (heading_text : string) (pdf_content_by_page : gmap Z string)
    (p : Z) : Q :=
  match pdf_content_by_page !! p with
  | Some content =>
      word_matches (heading_words heading_text) (clean_text_for_search content)
      # Z.to_pos (Z.of_nat (length (heading_words heading_text)))
  | None => 0
  end.

(** The test of strategy 3 on page [p]. *)
Definition phrase_on (heading_text : string) (pdf_content_by_page : gmap Z string)
    (p : Z) : bool :=
  match pdf_content_by_page !! p with
  | Some content =>
      phrase_found (heading_words heading_text) (clean_text_for_search content)
  | None => false
  end.

(** [candidates h d c n l]: the search for [h] in [d] from cursor [c]
    comes to strategy [n], and [l] is the list of pages among which that
    strategy then selects (for strategy 2, after the sort). *)
Inductive candidates (heading_text : string) (pdf_content_by_page : gmap Z string)
    (last_found_page : Z) : nat -> list Z -> Prop :=
  | candidates_exact l :
      exact_matches (clean_heading_no_numbers heading_text) pdf_content_by_page
        (pages_to_search pdf_content_by_page last_found_page) = Ok l ->
      candidates heading_text pdf_content_by_page last_found_page 1 l
  | candidates_partial l :
      exact_matches (clean_heading_no_numbers heading_text) pdf_content_by_page
        (pages_to_search pdf_content_by_page last_found_page) = Ok [] ->
      (2 <= length (heading_words heading_text))%nat ->
      partial_matches (heading_words heading_text) pdf_content_by_page
        (pages_to_search pdf_content_by_page last_found_page) = Ok l ->
      candidates heading_text pdf_content_by_page last_found_page 2
        (sort_by_ratio_desc l).*1
  | candidates_sequence l :
      exact_matches (clean_heading_no_numbers heading_text) pdf_content_by_page
        (pages_to_search pdf_content_by_page last_found_page) = Ok [] ->
      ((length (heading_words heading_text) < 2)%nat \/
       partial_matches (heading_words heading_text) pdf_content_by_page
         (pages_to_search pdf_content_by_page last_found_page) = Ok []) ->
      (3 <= length (heading_words heading_text))%nat ->
      sequence_matches (heading_words heading_text) pdf_content_by_page
        (pages_to_search pdf_content_by_page last_found_page) = Ok l ->
      candidates heading_text pdf_content_by_page last_found_page 3 l.


(** Strict normalisation in the words of the specification: lowercase,
    remove the digit runs, replace punctuation by spaces, collapse the
    whitespace, trim. *)
Definition normalize_strict (text : string) : string :=
  str_strip (sub_space_runs (sub_punctuation (sub_digit_runs (str_lower text)))).

(** The page the [k]-th appended entry gets when the corpus is empty
    ([k] counted from 0). *)
Definition empty_corpus_page (k : nat) : option Z :=
  Some (Z.min (Z.of_nat k + 1) 6).

(** The invariant of the logged pass: an estimated entry that follows a
    located one is not behind it; and after a located entry the cursor is
    that entry's page, a page of the corpus. *)
Definition log_inv (d : gmap Z string) (st : list (entry * resolution) * Z)
  : Prop :=
  (forall i e1 e2,
     st.1 !! i = Some (e1, Located) -> st.1 !! S i = Some (e2, Estimated) ->
     exists p1 p2, page e1 = Some p1 /\ page e2 = Some p2 /\ p1 <= p2)
  /\ (forall e, last st.1 = Some (e, Located) ->
        exists p, page e = Some p /\ st.2 = p /\ 0 < p /\ is_Some (d !! p)).

(** The chain of the three strategies on the lists their loops collect:
    [exact], [partial] and [sequence], for a heading of [nwords] words. *)
Definition strategy_chain (c : Z) (nwords : nat) (exact : list Z)
    (partial : list (Z * Q)) (sequence : list Z) : result (option Z) :=
  match exact with
  | _ :: _ => p ← select c exact; Ok (Some p)
  | [] =>
  match (if decide (2 <= nwords)%nat then partial else []) with
  | (_ :: _) as l => x ← select c (sort_by_ratio_desc l); Ok (Some x.1)
  | [] =>
  match (if decide (3 <= nwords)%nat then sequence else []) with
  | (_ :: _) as l => p ← select c l; Ok (Some p)
  | [] => Ok None
  end end end.

(** The pages of the search window that pass the test of a strategy. *)
Definition exact_pages (h : string) (d : gmap Z string) (c : Z) : list Z :=
  filter (fun p => Is_true (exact_on h d p)) (pages_to_search d c).

Definition partial_pages (h : string) (d : gmap Z string) (c : Z)
  : list (Z * Q) :=
  (fun p => (p, ratio_on h d p))
    <$> filter (fun p => Is_true (Qle_bool (7 # 10) (ratio_on h d p)))
               (pages_to_search d c).

Definition phrase_pages (h : string) (d : gmap Z string) (c : Z) : list Z :=
  filter (fun p => Is_true (phrase_on h d p)) (pages_to_search d c).

(** "The heading appears verbatim on page [p]" in the words of the
    specification: the strict-normalised heading is a substring of the
    strict-normalised text of the page. *)
Definition strict_on (heading_text : string) (d : gmap Z string) (p : Z)
  : bool :=
  match d !! p with
  | Some content =>
      str_contains (normalize_strict heading_text) (normalize_strict content)
  | None => false
  end.

(** ** Tactics for concrete corpora *)

(** Replace the search window of a concrete corpus by its value. *)
Ltac eval_window :=
  repeat match goal with
  | |- context [pages_to_search ?d ?c] =>
      let l := eval vm_compute in (pages_to_search d c) in
      change (pages_to_search d c) with l
  end.

(** Split a membership in a concrete list into its cases. *)
Ltac cases_of H :=
  repeat (apply elem_of_cons in H as [->|H]);
  try (by apply elem_of_nil in H).

(** Membership in a concrete list. *)
Ltac in_list := repeat first [by left | right].

(** ** The [result] monad and the loops *)

Lemma bind_Ok {A B} (f : A -> result B) (a : A) : (Ok a ≫= f) = f a.
Proof. reflexivity. Qed.

Lemma bind_Ok_inv {A B} (f : A -> result B) (m : result A) (b : B) :
  (m ≫= f) = Ok b -> exists a, m = Ok a /\ f a = Ok b.
Proof. destruct m as [a|e]; [eauto | discriminate]. Qed.

Lemma for_each_app {A S} (body : A -> S -> result S) xs ys acc :
  for_each body (xs ++ ys) acc = (for_each body xs acc ≫= for_each body ys).
Proof.
  revert acc. induction xs as [|x xs IH]; intros acc; simpl; [done|].
  destruct (body x acc) as [acc'|e]; simpl; [apply IH | done].
Qed.

(** A loop whose body appends [f x] when [test x] holds collects the
    images of the elements that pass the test, in order. *)
Lemma for_each_collect {A B} (test : A -> bool) (f : A -> B)
    (body : A -> list B -> result (list B)) xs acc :
  (forall x acc, x ∈ xs ->
     body x acc = Ok (if test x then acc ++ [f x] else acc)) ->
  for_each body xs acc
  = Ok (acc ++ (f <$> filter (fun x => Is_true (test x)) xs)).
Proof.
  revert acc. induction xs as [|x xs IH]; intros acc Hbody; simpl.
  - by rewrite app_nil_r.
  - rewrite Hbody by left. simpl. rewrite IH.
    + destruct (test x) eqn:Hx.
      * rewrite filter_cons_True by (by rewrite Hx).
        simpl. by rewrite <- app_assoc.
      * rewrite filter_cons_False by (rewrite Hx; intros []). done.
    + intros y acc' Hy. apply Hbody. by right.
Qed.

(** ** Keys of the corpus *)

Lemma elem_of_sorted_keys d p : p ∈ sorted_keys d <-> is_Some (d !! p).
Proof.
  unfold sorted_keys. rewrite merge_sort_Permutation.
  rewrite list_elem_of_fmap. split.
  - intros [[k v] [-> Hkv]]. apply elem_of_map_to_list in Hkv. eauto.
  - intros [v Hv]. exists (p, v). split; [done|].
    by apply elem_of_map_to_list.
Qed.

Lemma NoDup_sorted_keys d : NoDup (sorted_keys d).
Proof.
  unfold sorted_keys. rewrite merge_sort_Permutation.
  apply NoDup_fst_map_to_list.
Qed.

Lemma sorted_keys_ascending d : StronglySorted Z.le (sorted_keys d).
Proof. apply (StronglySorted_merge_sort Z.le). Qed.

Lemma sorted_keys_empty : sorted_keys ∅ = [].
Proof. reflexivity. Qed.

Lemma StronglySorted_sublist {A} (R : relation A) (P : A -> Prop)
    `{forall x, Decision (P x)} (l : list A) :
  StronglySorted R l -> StronglySorted R (filter P l).
Proof.
  induction 1 as [|x l Hl IH Hx]; [constructor|].
  rewrite filter_cons. destruct (decide (P x)); [|done].
  constructor; [done|].
  rewrite Forall_forall in *. intros y Hy.
  apply list_elem_of_filter in Hy as [_ Hy]. by apply Hx.
Qed.

Lemma elem_of_pages_to_search d c p :
  p ∈ pages_to_search d c <-> is_Some (d !! p) /\ start_page c <= p.
Proof.
  unfold pages_to_search. rewrite list_elem_of_filter, elem_of_sorted_keys.
  tauto.
Qed.

Lemma NoDup_pages_to_search d c : NoDup (pages_to_search d c).
Proof. apply NoDup_filter, NoDup_sorted_keys. Qed.

Lemma pages_to_search_ascending d c :
  StronglySorted Z.le (pages_to_search d c).
Proof. apply StronglySorted_sublist, sorted_keys_ascending. Qed.

Lemma pages_to_search_empty c : pages_to_search ∅ c = [].
Proof. reflexivity. Qed.

Lemma foldl_max_bounds (ks : list Z) (k : Z) :
  (foldl Z.max k ks = k \/ foldl Z.max k ks ∈ ks)
  /\ k <= foldl Z.max k ks
  /\ Forall (fun x => x <= foldl Z.max k ks) ks.
Proof.
  revert k. induction ks as [|x ks IH]; intros k; simpl.
  - split; [by left|]. split; [lia | constructor].
  - destruct (IH (Z.max k x)) as (Hin & Hle & Hall).
    split; [|split].
    + destruct Hin as [Heq|Hin]; [|right; by right].
      destruct (Z.max_spec k x) as [[_ Hm]|[_ Hm]].
      * right. rewrite Heq, Hm. by left.
      * left. by rewrite Heq, Hm.
    + lia.
    + constructor; [lia | done].
Qed.

(** [max] of the keys of a corpus that is not empty: a key, and no key is
    larger. *)
Lemma max_key_spec d :
  d <> ∅ ->
  exists m, max_key d = Ok m /\ is_Some (d !! m)
            /\ forall k, is_Some (d !! k) -> k <= m.
Proof.
  intros Hne. unfold max_key.
  assert (Hkeys : forall k, k ∈ (map_to_list d).*1 <-> is_Some (d !! k)).
  { intros k. rewrite list_elem_of_fmap. split.
    - intros [[k' v] [-> Hkv]]. apply elem_of_map_to_list in Hkv. eauto.
    - intros [v Hv]. exists (k, v). split; [done|].
      by apply elem_of_map_to_list. }
  destruct ((map_to_list d).*1) as [|k ks] eqn:E.
  - exfalso. apply Hne. apply map_to_list_empty_iff.
    by apply fmap_nil_inv in E.
  - exists (foldl Z.max k ks). split; [done|].
    destruct (foldl_max_bounds ks k) as (Hin & Hle & Hall). split.
    + apply Hkeys. destruct Hin as [->|Hin]; [by left | by right].
    + intros k' Hk'. apply Hkeys in Hk'.
      apply elem_of_cons in Hk' as [->|Hk']; [done|].
      rewrite Forall_forall in Hall. by apply Hall.
Qed.

(** ** The selection rule *)

Lemma select_single {A} c (x : A) : select c [x] = Ok x.
Proof. reflexivity. Qed.

Lemma select_second {A} (a b : A) l : select 0 (a :: b :: l) = Ok b.
Proof.
  unfold select. rewrite decide_False by (simpl; lia).
  rewrite decide_True by (simpl; lia). reflexivity.
Qed.

Lemma select_first {A} c (a : A) l : c <> 0 -> select c (a :: l) = Ok a.
Proof.
  intros Hc. unfold select.
  destruct (decide (length (a :: l) = 1%nat)); [done|].
  rewrite decide_False by tauto. reflexivity.
Qed.

Lemma select_elem_of {A} c (l : list A) :
  l <> [] -> exists x, select c l = Ok x /\ x ∈ l.
Proof.
  destruct l as [|a [|b l]]; [done | |]; intros _.
  - exists a. split; [apply select_single | by left].
  - destruct (decide (c = 0)) as [->|Hc].
    + exists b. split; [apply select_second | right; by left].
    + exists a. split; [by apply select_first | by left].
Qed.

Lemma select_fmap {A B} (f : A -> B) c (l : list A) :
  select c (f <$> l) = (select c l ≫= fun x => Ok (f x)).
Proof.
  unfold select. rewrite length_fmap.
  destruct l as [|a [|b l]]; simpl; repeat case_decide; reflexivity.
Qed.

(** ** What the three loops collect *)

Section loops.
Context (h : string) (d : gmap Z string) (pages : list Z).
Hypothesis pages_in_corpus : forall p, p ∈ pages -> is_Some (d !! p).

Lemma exact_matches_filter :
  exact_matches (clean_heading_no_numbers h) d pages
  = Ok (filter (fun p => Is_true (exact_on h d p)) pages).
Proof.
  unfold exact_matches.
  rewrite (for_each_collect (exact_on h d) id).
  - by rewrite list_fmap_id.
  - intros p acc Hp. destruct (pages_in_corpus p Hp) as [content Hc].
    unfold getitem, exact_on. rewrite Hc. simpl.
    by destruct (str_contains _ _).
Qed.

Lemma partial_matches_filter :
  (0 < length (heading_words h))%nat ->
  partial_matches (heading_words h) d pages
  = Ok ((fun p => (p, ratio_on h d p))
          <$> filter (fun p => Is_true (Qle_bool (7 # 10) (ratio_on h d p)))
                     pages).
Proof.
  intros Hlen. unfold partial_matches.
  rewrite (for_each_collect
             (fun p => Qle_bool (7 # 10) (ratio_on h d p))
             (fun p => (p, ratio_on h d p))); [done|].
  intros p acc Hp. destruct (pages_in_corpus p Hp) as [content Hc].
  unfold getitem, ratio_on, true_div. rewrite Hc. simpl.
  rewrite decide_False by lia. simpl.
  by destruct (Qle_bool _ _).
Qed.

Lemma sequence_matches_filter :
  sequence_matches (heading_words h) d pages
  = Ok (filter (fun p => Is_true (phrase_on h d p)) pages).
Proof.
  unfold sequence_matches.
  rewrite (for_each_collect (phrase_on h d) id).
  - by rewrite list_fmap_id.
  - intros p acc Hp. destruct (pages_in_corpus p Hp) as [content Hc].
    unfold getitem, phrase_on. rewrite Hc. simpl.
    by destruct (phrase_found _ _).
Qed.
End loops.

Lemma pages_to_search_in_corpus d c p :
  p ∈ pages_to_search d c -> is_Some (d !! p).
Proof. rewrite elem_of_pages_to_search. tauto. Qed.

(** ** The stable sort of strategy 2 *)

Lemma insert_by_ratio_Permutation x l : insert_by_ratio x l ≡ₚ x :: l.
Proof.
  induction l as [|y l IH]; simpl; [done|].
  destruct (Qle_bool y.2 x.2); [done|].
  rewrite IH. apply Permutation_swap.
Qed.

Lemma sort_by_ratio_desc_Permutation l : sort_by_ratio_desc l ≡ₚ l.
Proof.
  induction l as [|x l IH]; simpl; [done|].
  by rewrite insert_by_ratio_Permutation, IH.
Qed.

Lemma sort_by_ratio_desc_nil_inv l : sort_by_ratio_desc l = [] -> l = [].
Proof.
  intros E. apply Permutation_nil_r. rewrite <- E.
  symmetry. apply sort_by_ratio_desc_Permutation.
Qed.



(** ** The search as a chain of strategies *)

Lemma search_empty h c : search_heading_in_pdf_content h ∅ c = Ok None.
Proof. reflexivity. Qed.

Lemma candidates_in_window h d c n l :
  candidates h d c n l -> forall p, p ∈ l -> p ∈ pages_to_search d c.
Proof.
  pose proof (pages_to_search_in_corpus d c) as Hin.
  destruct 1 as [l E|l _ Hw E|l _ _ _ E]; intros p Hp.
  - rewrite exact_matches_filter in E by done. injection E as <-.
    by apply list_elem_of_filter in Hp as [_ Hp].
  - rewrite partial_matches_filter in E by (done || lia). injection E as <-.
    apply list_elem_of_fmap in Hp as [[q r] [-> Hp]].
    rewrite sort_by_ratio_desc_Permutation in Hp.
    apply list_elem_of_fmap in Hp as [q' [[= -> ->] Hp]].
    by apply list_elem_of_filter in Hp as [_ Hp].
  - rewrite sequence_matches_filter in E by done. injection E as <-.
    by apply list_elem_of_filter in Hp as [_ Hp].
Qed.

Lemma candidates_corpus_nonempty h d c n l :
  candidates h d c n l -> l <> [] -> d <> ∅.
Proof.
  intros Hc Hl ->. destruct l as [|p l]; [done|].
  pose proof (candidates_in_window _ _ _ _ _ Hc p) as Hp.
  rewrite pages_to_search_empty in Hp.
  by apply not_elem_of_nil in Hp; [|left].
Qed.

(** When the search comes to a strategy that has candidates, it returns
    the page the selection rule picks among them. *)
Lemma search_candidates h d c n l :
  candidates h d c n l -> l <> [] ->
  search_heading_in_pdf_content h d c
  = (select c l ≫= fun p => Ok (Some p)).
Proof.
  intros Hc Hl.
  pose proof (candidates_corpus_nonempty _ _ _ _ _ Hc Hl) as Hd.
  unfold search_heading_in_pdf_content.
  destruct (decide (d = ∅)) as [|_]; [done|].
  destruct Hc as [l E|l0 E Hw Ep|l E Hp Hw Es]; rewrite E; simpl.
  - destruct l; [by destruct Hl | reflexivity].
  - destruct (decide (2 <= length (heading_words h))%nat) as [_|]; [|done].
    rewrite Ep. simpl.
    destruct l0 as [|x l0]; [by destruct Hl|].
    rewrite select_fmap.
    by destruct (select c (sort_by_ratio_desc (x :: l0))).
  - destruct (decide (2 <= length (heading_words h))%nat) as [_|]; [|lia].
    destruct Hp as [Hp|Hp]; [lia|]. rewrite Hp. simpl.
    destruct (decide (3 <= length (heading_words h))%nat) as [_|]; [|done].
    rewrite Es. simpl.
    destruct l; [by destruct Hl | reflexivity].
Qed.

(** The search raises nothing; and it returns [None] only when no strategy
    it comes to has a candidate, a page only by selecting among the
    candidates of the strategy it stops at. *)
Lemma search_cases h d c :
  search_heading_in_pdf_content h d c = Ok None
  \/ exists n l p, candidates h d c n l /\ l <> []
                   /\ select c l = Ok p
                   /\ search_heading_in_pdf_content h d c = Ok (Some p).
Proof.
  destruct (decide (d = ∅)) as [->|Hd]; [by left|].
  pose proof (pages_to_search_in_corpus d c) as Hin.
  set (pages := pages_to_search d c) in *.
  assert (Hsel : forall n l, candidates h d c n l -> l <> [] ->
            exists n l p, candidates h d c n l /\ l <> []
                          /\ select c l = Ok p
                          /\ search_heading_in_pdf_content h d c = Ok (Some p)).
  { intros n l Hc Hl. destruct (select_elem_of c l Hl) as (p & Hp & _).
    exists n, l, p. repeat split; [done..|].
    rewrite (search_candidates _ _ _ _ _ Hc Hl), Hp. reflexivity. }
  pose proof (exact_matches_filter h d pages Hin) as E1.
  destruct (filter (fun p => Is_true (exact_on h d p)) pages) as [|p1 l1] eqn:F1.
  2:{ right. eapply Hsel; [by apply candidates_exact|done]. }
  destruct (decide (2 <= length (heading_words h))%nat) as [Hw2|Hw2].
  - pose proof (partial_matches_filter h d pages Hin ltac:(lia)) as E2.
    destruct (filter (fun p => Is_true (Qle_bool (7 # 10) (ratio_on h d p)))
                pages) as [|p2 l2] eqn:F2.
    2:{ right. eapply Hsel; [by apply candidates_partial|].
        intros Hnil. apply fmap_nil_inv, sort_by_ratio_desc_nil_inv in Hnil.
        discriminate. }
    destruct (decide (3 <= length (heading_words h))%nat) as [Hw3|Hw3].
    + pose proof (sequence_matches_filter h d pages Hin) as E3.
      destruct (filter (fun p => Is_true (phrase_on h d p)) pages)
        as [|p3 l3] eqn:F3.
      2:{ right. eapply Hsel; [apply candidates_sequence; eauto|done]. }
      left. unfold search_heading_in_pdf_content.
      destruct (decide (d = ∅)) as [|_]; [done|].
      fold pages. rewrite E1. simpl.
      destruct (decide (2 <= length (heading_words h))%nat) as [_|]; [|done].
      rewrite E2. simpl.
      destruct (decide (3 <= length (heading_words h))%nat) as [_|]; [|done].
      rewrite E3. reflexivity.
    + left. unfold search_heading_in_pdf_content.
      destruct (decide (d = ∅)) as [|_]; [done|].
      fold pages. rewrite E1. simpl.
      destruct (decide (2 <= length (heading_words h))%nat) as [_|]; [|done].
      rewrite E2. simpl.
      destruct (decide (3 <= length (heading_words h))%nat) as [|_]; [done|].
      reflexivity.
  - left. unfold search_heading_in_pdf_content.
    destruct (decide (d = ∅)) as [|_]; [done|].
    fold pages. rewrite E1. simpl.
    destruct (decide (2 <= length (heading_words h))%nat) as [|_]; [done|].
    simpl.
    destruct (decide (3 <= length (heading_words h))%nat) as [|_]; [lia|].
    reflexivity.
Qed.

Lemma search_total h d c :
  exists r, search_heading_in_pdf_content h d c = Ok r.
Proof.
  destruct (search_cases h d c) as [E|(n & l & p & _ & _ & _ & E)]; eauto.
Qed.

Lemma search_Some_inv h d c p :
  search_heading_in_pdf_content h d c = Ok (Some p) ->
  exists n l, candidates h d c n l /\ select c l = Ok p /\ p ∈ l.
Proof.
  intros E.
  destruct (search_cases h d c) as [E'|(n & l & q & Hc & Hl & Hs & E')];
    rewrite E' in E; [discriminate|]. injection E as ->.
  exists n, l. repeat split; [done..|].
  destruct (select_elem_of c l Hl) as (q & Hq & Hin). congruence.
Qed.


Lemma ascending_NoDup_strict (l : list Z) :
  StronglySorted Z.le l -> NoDup l -> StronglySorted Z.lt l.
Proof.
  induction 1 as [|x l Hl IH Hx]; intros Hnd; [constructor|].
  apply NoDup_cons in Hnd as [Hnin Hnd].
  constructor; [by apply IH|].
  rewrite Forall_forall in Hx. rewrite Forall_forall. intros y Hy.
  specialize (Hx y Hy).
  assert (x <> y) by (by intros ->). lia.
Qed.

Lemma pages_to_search_strict d c : StronglySorted Z.lt (pages_to_search d c).
Proof.
  apply ascending_NoDup_strict;
    [apply pages_to_search_ascending | apply NoDup_pages_to_search].
Qed.

(** The candidates of strategies 1 and 3 are in ascending page order. *)
Lemma candidates_ascending h d c n l :
  candidates h d c n l -> n <> 2%nat -> StronglySorted Z.lt l.
Proof.
  pose proof (pages_to_search_in_corpus d c) as Hin.
  destruct 1 as [l E|l _ _ _|l _ _ _ E]; intros Hn; [|done|].
  - rewrite exact_matches_filter in E by done. injection E as <-.
    apply StronglySorted_sublist, pages_to_search_strict.
  - rewrite sequence_matches_filter in E by done. injection E as <-.
    apply StronglySorted_sublist, pages_to_search_strict.
Qed.

(** An ascending list is determined by its elements. *)
Lemma ascending_unique (l1 l2 : list Z) :
  StronglySorted Z.lt l1 -> StronglySorted Z.lt l2 ->
  (forall x, x ∈ l1 <-> x ∈ l2) -> l1 = l2.
Proof.
  intros H1 H2 Hel.
  assert (Hnd : forall l, StronglySorted Z.lt l -> NoDup l).
  { induction 1 as [|x l Hl IH Hx]; constructor; [|done].
    intros Hin. rewrite Forall_forall in Hx. specialize (Hx x Hin). lia. }
  apply (StronglySorted_unique_strong Z.lt); [intros; lia|done..|].
  apply NoDup_Permutation; auto.
Qed.

Lemma exact_candidates h d c :
  candidates h d c 1
    (filter (fun p => Is_true (exact_on h d p)) (pages_to_search d c)).
Proof.
  apply candidates_exact, exact_matches_filter, pages_to_search_in_corpus.
Qed.

(** ** The estimator and one iteration of the loop *)

Lemma search_in_window h d c p :
  search_heading_in_pdf_content h d c = Ok (Some p) ->
  p ∈ pages_to_search d c.
Proof.
  intros E. apply search_Some_inv in E as (n & l & Hcand & _ & Hp).
  by apply (candidates_in_window _ _ _ _ _ Hcand).
Qed.

Lemma start_page_positive c : 1 <= start_page c /\ c < start_page c.
Proof. unfold start_page. case_decide; lia. Qed.

Lemma max_page_empty : max_page ∅ = Ok 6.
Proof. reflexivity. Qed.

Lemma max_page_nonempty d : d <> ∅ -> max_page d = max_key d.
Proof. intros Hd. unfold max_page. by rewrite decide_False. Qed.

Lemma max_page_total d : exists m, max_page d = Ok m.
Proof.
  destruct (decide (d = ∅)) as [->|Hd]; [by exists 6|].
  rewrite max_page_nonempty by done.
  destruct (max_key_spec d Hd) as (m & E & _). eauto.
Qed.

Lemma estimate_total h o d c :
  exists p, estimate_page_from_surrounding_headings h o d c = Ok p.
Proof.
  unfold estimate_page_from_surrounding_headings.
  destruct (max_page_total d) as [m Em].
  destruct o as [|e o]; [eauto|].
  case_decide; [rewrite Em; simpl; eauto|].
  destruct (last_outline_page _) as [p|]; [|eauto].
  destruct (truthy (Some p)); [rewrite Em; simpl; eauto | eauto].
Qed.

Lemma last_outline_page_None l :
  (forall e, e ∈ l -> truthy (page e) = false) -> last_outline_page l = None.
Proof.
  induction l as [|e l IH]; intros Hl; simpl; [done|].
  rewrite (Hl e) by left. apply IH. intros e' He'. apply Hl. by right.
Qed.

(** The two ways [resolve_page] returns; it raises nothing. *)
Lemma resolve_page_cases t o d c :
  (exists p, search_heading_in_pdf_content t d c = Ok (Some p)
             /\ resolve_page t o d c = Ok (p, Located))
  \/ (exists p, search_heading_in_pdf_content t d c = Ok None
                /\ estimate_page_from_surrounding_headings t o d c = Ok p
                /\ resolve_page t o d c = Ok (p, Estimated)).
Proof.
  unfold resolve_page. destruct (search_total t d c) as [[p|] E]; rewrite E.
  - left. eauto.
  - right. destruct (estimate_total t o d c) as [p Ep].
    exists p. rewrite Ep. eauto.
Qed.

Lemma meaningful_spec t : meaningful t = true <-> 2 < str_len t.
Proof.
  unfold meaningful, str_len. rewrite andb_true_iff, negb_true_iff.
  rewrite Z.ltb_lt. split; [tauto|]. intros Hlen. split; [|done].
  apply String.eqb_neq. intros ->. simpl in Hlen. lia.
Qed.

Lemma process_heading_skip d t st :
  meaningful (get_text_strip t) = false -> process_heading d t st = Ok st.
Proof. intros E. unfold process_heading. destruct st. by rewrite E. Qed.

Lemma process_heading_append d t o c :
  meaningful (get_text_strip t) = true ->
  exists p how,
    resolve_page (get_text_strip t) o d c = Ok (p, how)
    /\ process_heading d t (o, c)
       = Ok (o ++ [Entry (name_upper (name t)) (get_text_strip t) (Some p)],
             advance c p).
Proof.
  intros E. unfold process_heading. rewrite E.
  destruct (resolve_page_cases (get_text_strip t) o d c)
    as [(p & _ & Er)|(p & _ & _ & Er)]; rewrite Er; simpl; eauto.
Qed.

(** The pass without its log is the logged pass with the log dropped. *)
Lemma build_logged_outline d tags lg c :
  build_outline d tags (lg.*1, c)
  = (build_logged d tags (lg, c) ≫= fun st => Ok (st.1.*1, st.2)).
Proof.
  unfold build_outline, build_logged.
  revert lg c. induction tags as [|t tags IH]; intros lg c; simpl; [done|].
  unfold process_heading at 1, process_logged at 1.
  destruct (meaningful (get_text_strip t)); [|apply IH].
  destruct (resolve_page _ _ d c) as [[p how]|e]; simpl; [|done].
  rewrite <- IH. by rewrite fmap_app.
Qed.

Lemma extract_logged_outline title d tags :
  extract_headings_from_html title d tags
  = (extract_logged d tags ≫= fun lg => Ok (HeadingsData title lg.*1)).
Proof.
  unfold extract_headings_from_html, extract_logged.
  change (@nil entry) with ((@nil (entry * resolution)).*1).
  rewrite build_logged_outline.
  by destruct (build_logged d tags ([], 0)) as [[lg c]|e].
Qed.

Lemma corpus_nonempty k v l : corpus ((k, v) :: l) <> ∅.
Proof. apply insert_non_empty. Qed.

(** The cursor leaves 0 only when an entry is appended. *)
Lemma build_outline_cursor d tags o c o' c' :
  build_outline d tags (o, c) = Ok (o', c') ->
  (o = [] -> c <= 0) -> o' = [] -> c' <= 0.
Proof.
  revert o c. induction tags as [|t tags IH]; intros o c E Hoc.
  { by injection E as <- <-. }
  change (build_outline d (t :: tags) (o, c))
    with (process_heading d t (o, c) ≫= build_outline d tags) in E.
  destruct (meaningful (get_text_strip t)) eqn:Hm.
  - destruct (process_heading_append d t o c Hm) as (p & how & _ & E1).
    rewrite E1 in E. simpl in E. eapply IH; [exact E|].
    intros Hnil. by apply app_nil in Hnil as [_ ?].
  - rewrite process_heading_skip in E by done. simpl in E. eauto.
Qed.

(** ** The scenarios of the specification *)

Example scenario_second_occurrence :
  search_heading_in_pdf_content "Introduction to Systems"
    (corpus [(1, "Introduction to Systems"); (2, "Background");
             (3, "Introduction to Systems details follow")]) 0
  = Ok (Some 3).
Proof. vm_compute. reflexivity. Qed.

Example scenario_word_overlap :
  search_heading_in_pdf_content "Bar Baz"
    (corpus [(1, "foo"); (2, "bar baz qux")]) 0
  = Ok (Some 2).
Proof. vm_compute. reflexivity. Qed.

Example scenario_empty_corpus :
  search_heading_in_pdf_content "Anything" ∅ 0 = Ok None
  /\ estimate_page_from_surrounding_headings "Anything" [] ∅ 0 = Ok 1.
Proof. split; reflexivity. Qed.

(** * The claims *)

(** ** The Heading Locator *)

(** C2, as the code has it.  Strategy 1 collects a page of the search
    window if and only if the strict-normalised heading (the heading cleaned
    by [clean_text_for_search] and then by
    [remove_numbers_and_special_chars]) is a substring of the page text
    cleaned by [clean_text_for_search] alone: punctuation, case and
    whitespace of the page are normalised, its digits are kept. *)
Theorem exact_match_collects (heading_text : string) (d : gmap Z string)
    (c : Z) :
  exists collected,
    exact_matches (clean_heading_no_numbers heading_text) d
                  (pages_to_search d c) = Ok collected
    /\ forall p, p ∈ collected <->
         p ∈ pages_to_search d c
         /\ exists content, d !! p = Some content
              /\ str_contains (clean_heading_no_numbers heading_text)
                              (clean_text_for_search content) = true.
Proof.
  exists (filter (fun p => Is_true (exact_on heading_text d p))
                 (pages_to_search d c)).
  split.
  { apply exact_matches_filter, pages_to_search_in_corpus. }
  intros p. rewrite list_elem_of_filter. unfold exact_on. split.
  - intros [Hon Hp]. split; [done|].
    destruct (d !! p) as [content|]; [|done].
    exists content. split; [done|]. by apply Is_true_true.
  - intros [Hp (content & -> & Hon)]. split; [|done]. by apply Is_true_true.
Qed.

(** C2 as stated fails: a page whose text is the heading itself, with a
    number inside, is not collected, although the strict-normalised heading
    is a substring of the strict-normalised page text. *)
Lemma page_text_keeps_digits :
  ~ (forall (heading_text : string) (d : gmap Z string) (c p : Z)
            (content : string),
       p ∈ pages_to_search d c -> d !! p = Some content ->
       exists collected,
         exact_matches (clean_heading_no_numbers heading_text) d
                       (pages_to_search d c) = Ok collected
         /\ (p ∈ collected <->
             str_contains (normalize_strict heading_text)
                          (normalize_strict content) = true)).
Proof.
  intros H.
  destruct (H "Chapter 1 Overview" (corpus [(1, "Chapter 1 Overview")]) 0 1
              "Chapter 1 Overview") as (collected & E & Hiff).
  - eval_window. in_list.
  - reflexivity.
  - vm_compute in E. injection E as <-.
    apply (not_elem_of_nil 1), Hiff. vm_compute. reflexivity.
Qed.

(** C4, as the code has it.  When the strict-normalised heading is a
    substring of the cleaned text, digits kept, of exactly one page of the
    search window (the test of strategy 1), the search returns that page,
    whatever the other pages would give under strategies 2 and 3. *)
Theorem exact_match_priority (heading_text : string) (d : gmap Z string)
    (c p : Z) :
  p ∈ pages_to_search d c ->
  exact_on heading_text d p = true ->
  (forall q, q ∈ pages_to_search d c ->
             exact_on heading_text d q = true -> q = p) ->
  search_heading_in_pdf_content heading_text d c = Ok (Some p).
Proof.
  intros Hp Hon Honly.
  assert (E : filter (fun q => Is_true (exact_on heading_text d q))
                     (pages_to_search d c) = [p]).
  { apply ascending_unique.
    - apply StronglySorted_sublist, pages_to_search_strict.
    - repeat constructor.
    - intros q. rewrite list_elem_of_filter, list_elem_of_singleton. split.
      + intros [Hq Hin]. apply Honly; [done|]. by apply Is_true_true.
      + intros ->. split; [by apply Is_true_true | done]. }
  pose proof (exact_candidates heading_text d c) as Hc. rewrite E in Hc.
  by rewrite (search_candidates _ _ _ _ _ Hc).
Qed.

(** Page 2 holds the heading verbatim; page 1 holds both of its words, so
    it would qualify under strategy 2 with fraction 1. *)
Lemma exact_match_priority_witness :
  ratio_on "Bar Baz" (corpus [(1, "baz and bar"); (2, "bar baz qux")]) 1 = 2 # 2
  /\ search_heading_in_pdf_content "Bar Baz"
       (corpus [(1, "baz and bar"); (2, "bar baz qux")]) 0 = Ok (Some 2).
Proof.
  split; [vm_compute; reflexivity|].
  apply exact_match_priority.
  - eval_window. in_list.
  - vm_compute. reflexivity.
  - eval_window. intros q Hq Hon. cases_of Hq; [|reflexivity].
    vm_compute in Hon. discriminate.
Defined.

(** C4 as stated fails: the heading stands verbatim on page 1 and on no
    other page, but its number keeps strategy 1 from finding it there;
    strategy 2 finds both words on pages 1 and 2, and on the first search
    the second of them, page 2, is returned. *)
Lemma verbatim_page_not_returned :
  ~ (forall (heading_text : string) (d : gmap Z string) (c p : Z),
       p ∈ pages_to_search d c ->
       strict_on heading_text d p = true ->
       (forall q, q ∈ pages_to_search d c ->
                  strict_on heading_text d q = true -> q = p) ->
       search_heading_in_pdf_content heading_text d c = Ok (Some p)).
Proof.
  intros H.
  assert (search_heading_in_pdf_content "Chapter 1 Overview"
            (corpus [(1, "Chapter 1 Overview"); (2, "overview chapter")]) 0
          = Ok (Some 1)) as E1.
  { apply H.
    - eval_window. in_list.
    - vm_compute. reflexivity.
    - eval_window. intros q Hq Hon. cases_of Hq; [reflexivity|].
      vm_compute in Hon. discriminate. }
  vm_compute in E1. discriminate.
Qed.

(** C5, as the code has it.  On the first search ([last_found_page = 0]),
    when the strategy the search stops at has two or more candidates, the
    search returns the second of them; the candidates of strategies 1 and 3
    are in ascending page order, those of strategy 2 in the order of its
    sort.  In particular a heading whose strict-normalised text is a
    substring of the cleaned page text, digits kept, exactly on pages 3 and
    7 (the test of strategy 1) is located on page 7. *)
Theorem first_occurrence_skip (heading_text : string) (d : gmap Z string) :
  (forall n a b l,
     candidates heading_text d 0 n (a :: b :: l) ->
     search_heading_in_pdf_content heading_text d 0 = Ok (Some b)
     /\ (n <> 2%nat -> StronglySorted Z.lt (a :: b :: l)))
  /\ ((forall p, exact_on heading_text d p = true <-> p = 3 \/ p = 7) ->
      search_heading_in_pdf_content heading_text d 0 = Ok (Some 7)).
Proof.
  split.
  - intros n a b l Hc. split.
    + rewrite (search_candidates _ _ _ _ _ Hc) by done.
      by rewrite select_second.
    + by apply (candidates_ascending _ _ _ _ _ Hc).
  - intros Hon.
    assert (E : filter (fun q => Is_true (exact_on heading_text d q))
                       (pages_to_search d 0) = [3; 7]).
    { apply ascending_unique.
      - apply StronglySorted_sublist, pages_to_search_strict.
      - repeat constructor; lia.
      - intros q. rewrite list_elem_of_filter, Is_true_true, Hon.
        rewrite elem_of_pages_to_search. unfold exact_on, start_page.
        rewrite decide_False by lia. split.
        + intros [[->| ->] _]; in_list.
        + intros Hq. assert (Hq' : q = 3 \/ q = 7) by (cases_of Hq; auto).
          split; [done|]. split; [|lia].
          apply Hon in Hq'. unfold exact_on in Hq'.
          destruct (d !! q); [eauto | discriminate]. }
    pose proof (exact_candidates heading_text d 0) as Hc. rewrite E in Hc.
    rewrite (search_candidates _ _ _ _ _ Hc) by done.
    by rewrite select_second.
Qed.

(** A seven-page document: the heading is listed in the contents on page 3
    and starts its section on page 7. *)
Lemma first_occurrence_skip_witness :
  search_heading_in_pdf_content "2. Methods"
    (corpus [(1, "Annual Report"); (2, "Foreword"); (3, "1 Scope 2 Methods");
             (4, "1. Scope"); (5, "scope, continued"); (6, "notes");
             (7, "2. Methods We measured.")]) 0
  = Ok (Some 7).
Proof.
  apply first_occurrence_skip. intros p. split.
  - intros Hon. unfold exact_on in Hon.
    destruct (corpus _ !! p) as [content|] eqn:E; [|discriminate].
    assert (Hp : p ∈ sorted_keys (corpus [(1, "Annual Report"); (2, "Foreword");
               (3, "1 Scope 2 Methods"); (4, "1. Scope");
               (5, "scope, continued"); (6, "notes");
               (7, "2. Methods We measured.")])).
    { apply elem_of_sorted_keys. rewrite E. eauto. }
    vm_compute sorted_keys in Hp.
    cases_of Hp; vm_compute in E; injection E as <-;
      first [by left | by right | vm_compute in Hon; discriminate].
  - intros [-> | ->]; vm_compute; reflexivity.
Defined.

(** C5 as stated fails in its particular case: the heading stands
    verbatim exactly on pages 3 and 7, but its number keeps strategy 1 from
    finding it; strategy 2 finds both words on pages 1, 3 and 7, and the
    second of these, page 3, is returned. *)
Lemma verbatim_on_3_and_7_returns_3 :
  ~ (forall (heading_text : string) (d : gmap Z string),
       (forall p, strict_on heading_text d p = true <-> p = 3 \/ p = 7) ->
       search_heading_in_pdf_content heading_text d 0 = Ok (Some 7)).
Proof.
  intros H.
  assert (search_heading_in_pdf_content "Chapter 1 Overview"
            (corpus [(1, "Overview of each chapter"); (2, "Foreword");
                     (3, "Chapter 1 Overview"); (4, "text"); (5, "text");
                     (6, "notes");
                     (7, "Chapter 1 Overview. We begin.")]) 0
          = Ok (Some 7)) as E7.
  { apply H. intros p. split.
    - intros Hon. unfold strict_on in Hon.
      destruct (corpus _ !! p) as [content|] eqn:Ec; [|discriminate].
      assert (Hp : p ∈ sorted_keys
                (corpus [(1, "Overview of each chapter"); (2, "Foreword");
                         (3, "Chapter 1 Overview"); (4, "text"); (5, "text");
                         (6, "notes");
                         (7, "Chapter 1 Overview. We begin.")])).
      { apply elem_of_sorted_keys. rewrite Ec. eauto. }
      vm_compute sorted_keys in Hp.
      cases_of Hp; vm_compute in Ec; injection Ec as <-;
        first [by left | by right | vm_compute in Hon; discriminate].
    - intros [-> | ->]; vm_compute; reflexivity. }
  vm_compute in E7. discriminate.
Qed.

(** C6.  With a cursor above 0, a page the search returns lies after the
    cursor, whichever strategy found it. *)
Theorem forward_window (heading_text : string) (d : gmap Z string) (c p : Z) :
  0 < c ->
  search_heading_in_pdf_content heading_text d c = Ok (Some p) ->
  c + 1 <= p.
Proof.
  intros Hc E. apply search_Some_inv in E as (n & l & Hcand & _ & Hp).
  apply (candidates_in_window _ _ _ _ _ Hcand) in Hp.
  apply elem_of_pages_to_search in Hp as [_ Hp].
  unfold start_page in Hp. by rewrite decide_True in Hp.
Qed.

(** The heading stands verbatim on page 2, behind the cursor 5; the search
    returns page 6. *)
Lemma forward_window_witness :
  exact_on "Overview"
    (corpus [(1, "Title"); (2, "Overview"); (3, "a"); (4, "b"); (5, "c");
             (6, "An overview of the rest")]) 2 = true
  /\ search_heading_in_pdf_content "Overview"
       (corpus [(1, "Title"); (2, "Overview"); (3, "a"); (4, "b"); (5, "c");
                (6, "An overview of the rest")]) 5 = Ok (Some 6)
  /\ 5 + 1 <= 6.
Proof.
  split; [vm_compute; reflexivity|].
  split; [vm_compute; reflexivity|].
  apply (forward_window "Overview"
           (corpus [(1, "Title"); (2, "Overview"); (3, "a"); (4, "b");
                    (5, "c"); (6, "An overview of the rest")]) 5 6).
  - lia.
  - vm_compute. reflexivity.
Defined.



(** ** The Fallback Estimator *)

(** C3, as the code has it.  With a cursor above 0, a corpus that is not
    empty and at least one heading already processed, the estimator
    returns [min (last_found_page + 1) m], where [m] is the largest page
    number of the corpus, whatever the processed headings hold.  With no
    heading processed yet it returns 1, whatever the cursor.  With the
    cursor at 0 and no processed heading with a known page it returns 1.
    In a pass of the Outline Builder the cursor is above 0 only when a
    heading has been processed, so the first case covers every call the
    pass makes with a cursor above 0. *)
Theorem estimate_next_page (heading_text : string) (o : list entry)
    (d : gmap Z string) (c : Z) :
  (0 < c -> d <> ∅ -> o <> [] ->
   exists m, max_key d = Ok m
     /\ is_Some (d !! m) /\ (forall k, is_Some (d !! k) -> k <= m)
     /\ estimate_page_from_surrounding_headings heading_text o d c
        = Ok (Z.min (c + 1) m))
  /\ (o = [] ->
      estimate_page_from_surrounding_headings heading_text o d c = Ok 1)
  /\ (c = 0 -> (forall e, e ∈ o -> truthy (page e) = false) ->
      estimate_page_from_surrounding_headings heading_text o d c = Ok 1)
  /\ (forall tags o' c',
        build_outline d tags ([], 0) = Ok (o', c') -> 0 < c' -> o' <> []).
Proof.
  split; [|split; [|split]].
  - intros Hc Hd Ho. destruct (max_key_spec d Hd) as (m & Em & Hin & Hmax).
    exists m. repeat split; [done..|].
    unfold estimate_page_from_surrounding_headings.
    destruct o as [|e o]; [done|].
    rewrite decide_True by done.
    rewrite max_page_nonempty, Em by done. reflexivity.
  - by intros ->.
  - intros -> Ho. unfold estimate_page_from_surrounding_headings.
    destruct o as [|e o]; [done|].
    rewrite decide_False by lia.
    rewrite last_outline_page_None; [done|].
    intros e' He'. apply Ho. by rewrite <- elem_of_reverse.
  - intros tags o' c' E Hc' Hnil.
    pose proof (build_outline_cursor _ _ _ _ _ _ E (fun _ => Z.le_refl 0) Hnil).
    lia.
Qed.

(** Cursor 3 in a five-page corpus, one heading processed: page 4. *)
Lemma estimate_next_page_witness :
  estimate_page_from_surrounding_headings "Results"
    [Entry "H1" "Methods" (Some 3)]
    (corpus [(1, "a"); (2, "b"); (3, "Methods"); (4, "c"); (5, "d")]) 3
  = Ok (Z.min (3 + 1) 5).
Proof.
  destruct (estimate_next_page "Results" [Entry "H1" "Methods" (Some 3)]
              (corpus [(1, "a"); (2, "b"); (3, "Methods"); (4, "c"); (5, "d")])
              3) as [Hnext _].
  destruct Hnext as (m & Em & _ & _ & E).
  - lia.
  - apply corpus_nonempty.
  - discriminate.
  - vm_compute in Em. injection Em as <-. exact E.
Defined.

(** C3 as stated fails: called with an empty list of processed headings,
    the estimator returns 1 although the cursor is 3 and the corpus has
    five pages. *)
Lemma estimate_empty_outline :
  ~ (forall (heading_text : string) (o : list entry) (d : gmap Z string)
            (c : Z),
       0 < c -> d <> ∅ ->
       exists m, max_key d = Ok m
         /\ estimate_page_from_surrounding_headings heading_text o d c
            = Ok (Z.min (c + 1) m)).
Proof.
  intros H.
  destruct (H "Results" []
              (corpus [(1, "a"); (2, "b"); (3, "c"); (4, "d"); (5, "e")]) 3)
    as (m & Em & E).
  - lia.
  - apply corpus_nonempty.
  - vm_compute in Em. injection Em as <-. vm_compute in E. discriminate.
Qed.

(** ** The Outline Builder *)

Lemma build_outline_cons d t tags st :
  build_outline d (t :: tags) st
  = (process_heading d t st ≫= build_outline d tags).
Proof. reflexivity. Qed.

Lemma build_outline_app d tags1 tags2 st :
  build_outline d (tags1 ++ tags2) st
  = (build_outline d tags1 st ≫= build_outline d tags2).
Proof. apply for_each_app. Qed.

(** With an empty corpus, each iteration on a meaningful heading appends
    the next page up to 6. *)
Lemma build_outline_empty_corpus tags o c :
  c = Z.min (Z.of_nat (length o)) 6 ->
  page <$> o = empty_corpus_page <$> seq 0 (length o) ->
  exists o' c',
    build_outline ∅ tags (o, c) = Ok (o', c')
    /\ page <$> o' = empty_corpus_page <$> seq 0 (length o').
Proof.
  revert o c. induction tags as [|t tags IH]; intros o c Hc Ho.
  { exists o, c. by split. }
  rewrite build_outline_cons.
  destruct (meaningful (get_text_strip t)) eqn:Hm.
  2:{ rewrite process_heading_skip by done. simpl. by apply IH. }
  destruct (process_heading_append ∅ t o c Hm) as (p & how & Er & ->).
  simpl.
  assert (Hp : p = Z.min (Z.of_nat (length o) + 1) 6).
  { unfold resolve_page in Er. rewrite search_empty in Er. simpl in Er.
    unfold estimate_page_from_surrounding_headings in Er.
    destruct o as [|e o]; simpl in *; [by injection Er as <-|].
    rewrite decide_True in Er by lia. rewrite max_page_empty in Er.
    simpl in Er. injection Er as <- _. lia. }
  apply IH.
  - rewrite length_app. simpl. unfold advance. simpl.
    destruct (p =? 0) eqn:E0; [lia|]. simpl.
    destruct (c <? p) eqn:Ecp; [apply Z.ltb_lt in Ecp|apply Z.ltb_ge in Ecp];
      lia.
  - rewrite fmap_app, length_app, seq_app, fmap_app, Ho. simpl.
    unfold empty_corpus_page at 2. by rewrite Hp.
Qed.

(** C1, as the code has it.  With an empty corpus the search returns
    [None] for every heading and cursor, the pass returns an outline, and
    the [k]-th entry of the outline (counted from 1) carries page
    [min k 6]: the first entry page 1, the following ones the next pages
    up to 6. *)
Theorem empty_corpus_pages (title : string) (tags : list heading_tag) :
  (forall heading_text c,
     search_heading_in_pdf_content heading_text ∅ c = Ok None)
  /\ exists o,
       extract_headings_from_html title ∅ tags = Ok (HeadingsData title o)
       /\ page <$> o = empty_corpus_page <$> seq 0 (length o).
Proof.
  split; [done|].
  destruct (build_outline_empty_corpus tags [] 0) as (o & c & E & Ho);
    [done..|].
  exists o. split; [|done].
  unfold extract_headings_from_html. by rewrite E.
Qed.

(** C1 as stated fails: with an empty corpus and two headings, the second
    entry of the outline carries page 2. *)
Lemma empty_corpus_second_page :
  ~ (forall (title : string) (tags : list heading_tag) (o : list entry),
       extract_headings_from_html title ∅ tags = Ok (HeadingsData title o) ->
       forall e, e ∈ o -> page e = Some 1).
Proof.
  intros H.
  specialize (H "Report"
                [HeadingTag h1 ["Introduction"]; HeadingTag h2 ["Background"]]
                [Entry "H1" "Introduction" (Some 1);
                 Entry "H2" "Background" (Some 2)]
                ltac:(vm_compute; reflexivity)
                (Entry "H2" "Background" (Some 2))
                ltac:(in_list)).
  discriminate.
Qed.




(** C10.  A heading element whose stripped text is empty or has at most 2
    characters leaves the outline and the cursor as they are, so the pass
    over a list with such an element returns what it returns without it,
    and the outline has fewer entries than there are heading elements. *)
Theorem short_heading_skipped (d : gmap Z string) (t : heading_tag) :
  str_len (get_text_strip t) <= 2 ->
  (forall st, process_heading d t st = Ok st)
  /\ (forall title before after,
        extract_headings_from_html title d (before ++ t :: after)
        = extract_headings_from_html title d (before ++ after))
  /\ (forall title tags o,
        t ∈ tags ->
        extract_headings_from_html title d tags = Ok (HeadingsData title o) ->
        (length o < length tags)%nat).
Proof.
  intros Hlen.
  assert (Hm : meaningful (get_text_strip t) = false).
  { destruct (meaningful _) eqn:E; [|done]. apply meaningful_spec in E. lia. }
  assert (Hskip : forall title before after,
            extract_headings_from_html title d (before ++ t :: after)
            = extract_headings_from_html title d (before ++ after)).
  { intros title before after. unfold extract_headings_from_html.
    rewrite !build_outline_app.
    destruct (build_outline d before ([], 0)) as [st|e]; [|done]. simpl.
    by rewrite build_outline_cons, process_heading_skip. }
  split; [|split]; [|done|].
  - intros st. by apply process_heading_skip.
  - intros title tags o Hin E.
    apply list_elem_of_split in Hin as (before & after & ->).
    rewrite Hskip in E. rewrite length_app. simpl.
    assert (Hle : forall tags o c o' c',
              build_outline d tags (o, c) = Ok (o', c') ->
              (length o' <= length o + length tags)%nat).
    { clear. induction tags as [|t tags IH]; intros o c o' c' E.
      - injection E as <- _. simpl. lia.
      - rewrite build_outline_cons in E.
        apply bind_Ok_inv in E as ([o1 c1] & E1 & E).
        apply IH in E. simpl.
        unfold process_heading in E1.
        destruct (meaningful _).
        + apply bind_Ok_inv in E1 as ([p how] & _ & E1).
          injection E1 as <- _. rewrite length_app in E. simpl in E. lia.
        + injection E1 as <- _. lia. }
    unfold extract_headings_from_html in E.
    apply bind_Ok_inv in E as ([o' c'] & E & [= <-]).
    apply Hle in E. rewrite length_app in E. simpl in E. lia.
Qed.

(** Of three heading elements the second, "ab", is dropped: two entries
    come out. *)
Lemma short_heading_skipped_witness :
  extract_headings_from_html "Report" ∅
    [HeadingTag h1 ["Introduction"]; HeadingTag h2 [" ab "];
     HeadingTag h2 ["Background"]]
  = Ok (HeadingsData "Report"
          [Entry "H1" "Introduction" (Some 1);
           Entry "H2" "Background" (Some 2)]).
Proof.
  destruct (short_heading_skipped ∅ (HeadingTag h2 [" ab "])) as (_ & Hskip & _).
  - vm_compute. discriminate.
  - etransitivity.
    + exact (Hskip "Report" [HeadingTag h1 ["Introduction"]]
                   [HeadingTag h2 ["Background"]]).
    + vm_compute. reflexivity.
Defined.

Lemma advance_located c p : c < p -> 0 < p -> advance c p = p.
Proof.
  intros Hc Hp. unfold advance. simpl.
  destruct (p =? 0) eqn:E0; [lia|].
  destruct (c <? p) eqn:Ecp; [done|]. apply Z.ltb_ge in Ecp. lia.
Qed.

Lemma process_logged_inv d t st st' :
  log_inv d st -> process_logged d t st = Ok st' -> log_inv d st'.
Proof.
  destruct st as [lg c]. intros [Hadj Hlast] E. unfold process_logged in E.
  destruct (meaningful (get_text_strip t)); [|by injection E as <-].
  set (txt := get_text_strip t) in *. set (lv := name_upper (name t)) in *.
  destruct (resolve_page_cases txt lg.*1 d c)
    as [(p & Es & Er)|(p & Es & Ee & Er)];
    rewrite Er in E; simpl in E; injection E as <-; split; simpl.
  - (* located: no new pair ends in an estimated entry *)
    intros i e1 e2 H1 H2.
    destruct (decide (S i < length lg)%nat) as [Hi|Hi].
    + rewrite lookup_app_l in H1 by lia. rewrite lookup_app_l in H2 by lia.
      eauto.
    + rewrite lookup_app_r in H2 by lia.
      destruct (S i - length lg)%nat as [|k]; simpl in H2; [|done].
      discriminate.
  - intros e He. rewrite last_snoc in He. injection He as <-.
    apply search_in_window, elem_of_pages_to_search in Es as [Hin Hp].
    pose proof (start_page_positive c).
    exists p. repeat split; [|lia|done]. apply advance_located; lia.
  - (* estimated: the new pair, when it starts with a located entry *)
    intros i e1 e2 H1 H2.
    destruct (decide (S i < length lg)%nat) as [Hi|Hi].
    + rewrite lookup_app_l in H1 by lia. rewrite lookup_app_l in H2 by lia.
      eauto.
    + assert (S i = length lg) as Hlen.
      { apply lookup_lt_Some in H2. rewrite length_app in H2. simpl in H2.
        lia. }
      rewrite lookup_app_l in H1 by lia.
      rewrite lookup_app_r in H2 by lia.
      replace (S i - length lg)%nat with 0%nat in H2 by lia.
      injection H2 as <-.
      assert (last lg = Some (e1, Located)) as Hl.
      { rewrite last_lookup. by replace (pred (length lg)) with i by lia. }
      destruct (Hlast e1 Hl) as (p1 & Hp1 & Hc & Hpos & Hin). simpl in Hc.
      subst c. exists p1, p. repeat split; [done|].
      assert (d <> ∅) as Hd.
      { intros ->. rewrite lookup_empty in Hin. by destruct Hin. }
      destruct (max_key_spec d Hd) as (m & Em & _ & Hmax).
      unfold estimate_page_from_surrounding_headings in Ee.
      destruct lg as [|x lg]; [done|]. simpl in Ee.
      rewrite decide_True in Ee by done.
      rewrite max_page_nonempty, Em in Ee by done. simpl in Ee.
      injection Ee as <-. specialize (Hmax p1 Hin). lia.
  - intros e He. rewrite last_snoc in He. discriminate.
Qed.

Lemma build_logged_inv d tags st st' :
  log_inv d st -> build_logged d tags st = Ok st' -> log_inv d st'.
Proof.
  unfold build_logged. revert st.
  induction tags as [|t tags IH]; intros st Hinv E; simpl in E.
  - by injection E as <-.
  - apply bind_Ok_inv in E as (st1 & E1 & E).
    eapply IH; [|exact E]. by eapply process_logged_inv.
Qed.

(** C8.  In the outline a pass returns, an entry whose page the estimator
    gave and that follows an entry whose page the search gave carries a
    page that is not smaller. *)
Theorem fallback_not_behind_match (title : string) (d : gmap Z string)
    (tags : list heading_tag) (out : headings_data) :
  extract_headings_from_html title d tags = Ok out ->
  exists logged,
    extract_logged d tags = Ok logged
    /\ logged.*1 = outline out
    /\ forall i e1 e2,
         logged !! i = Some (e1, Located) ->
         logged !! S i = Some (e2, Estimated) ->
         exists p1 p2, page e1 = Some p1 /\ page e2 = Some p2 /\ p1 <= p2.
Proof.
  intros E. rewrite extract_logged_outline in E.
  apply bind_Ok_inv in E as (logged & El & [= <-]).
  exists logged. split; [done|]. split; [done|].
  unfold extract_logged in El.
  apply bind_Ok_inv in El as ([lg c] & Eb & [= <-]).
  assert (log_inv d ([], 0)) as Hinit.
  { split; simpl; intros; discriminate. }
  by destruct (build_logged_inv d tags _ _ Hinit Eb) as [Hadj _].
Qed.

(** "Methods" is located on page 3 of 4, "Untitled remarks" is on no page:
    it is estimated on page 4. *)
Lemma fallback_not_behind_match_witness :
  exists p1 p2 : Z,
    page (Entry "H1" "Methods" (Some 3)) = Some p1
    /\ page (Entry "H2" "Untitled remarks" (Some 4)) = Some p2 /\ p1 <= p2.
Proof.
  destruct (fallback_not_behind_match "Report"
              (corpus [(1, "Report"); (2, "Scope"); (3, "Methods used");
                       (4, "Closing words")])
              [HeadingTag h1 ["Methods"]; HeadingTag h2 ["Untitled remarks"]]
              (HeadingsData "Report"
                 [Entry "H1" "Methods" (Some 3);
                  Entry "H2" "Untitled remarks" (Some 4)]))
    as (logged & El & _ & Hadj).
  - vm_compute. reflexivity.
  - vm_compute in El. injection El as <-.
    apply (Hadj 0%nat); reflexivity.
Defined.

(** * Further properties of the code *)

(** ** The search as a function of the pages that pass each test *)

Lemma search_chain h d c :
  search_heading_in_pdf_content h d c
  = strategy_chain c (length (heading_words h)) (exact_pages h d c)
                   (partial_pages h d c) (phrase_pages h d c).
Proof.
  pose proof (pages_to_search_in_corpus d c) as Hin.
  unfold exact_pages, partial_pages, phrase_pages, strategy_chain.
  destruct (decide (d = ∅)) as [->|Hd].
  { rewrite search_empty, pages_to_search_empty. simpl.
    repeat case_decide; reflexivity. }
  unfold search_heading_in_pdf_content.
  destruct (decide (d = ∅)) as [|_]; [done|].
  rewrite exact_matches_filter by done. simpl.
  destruct (filter _ (pages_to_search d c)) as [|p1 l1]; [|reflexivity].
  destruct (decide (2 <= length (heading_words h))%nat) as [Hw2|Hw2].
  - rewrite partial_matches_filter by (done || lia). simpl.
    destruct (filter (fun p => Is_true (Qle_bool _ _)) (pages_to_search d c))
      as [|p2 l2]; simpl; [|reflexivity].
    destruct (decide (3 <= length (heading_words h))%nat) as [Hw3|Hw3];
      [|reflexivity].
    rewrite sequence_matches_filter by done. simpl.
    by destruct (filter _ (pages_to_search d c)).
  - simpl.
    destruct (decide (3 <= length (heading_words h))%nat) as [Hw3|Hw3];
      [lia | reflexivity].
Qed.

Lemma filter_nil_iff {A} (P : A -> Prop) `{forall x, Decision (P x)}
    (l : list A) :
  filter P l = [] <-> forall x, x ∈ l -> ~ P x.
Proof.
  split.
  - intros E x Hx HP. by apply (filter_nil_not_elem_of P l x).
  - intros Hl. induction l as [|x l IH]; [done|].
    rewrite filter_cons_False by (apply Hl; left).
    apply IH. intros y Hy. apply Hl. by right.
Qed.

Lemma elem_of_exact_pages h d c p :
  p ∈ exact_pages h d c <-> p ∈ pages_to_search d c /\ exact_on h d p = true.
Proof.
  unfold exact_pages. rewrite list_elem_of_filter, Is_true_true. tauto.
Qed.

Lemma elem_of_partial_pages h d c p r :
  (p, r) ∈ partial_pages h d c
  <-> p ∈ pages_to_search d c /\ r = ratio_on h d p
      /\ Qle_bool (7 # 10) r = true.
Proof.
  unfold partial_pages. rewrite list_elem_of_fmap. split.
  - intros (q & [= -> ->] & Hq). apply list_elem_of_filter in Hq as [Hr Hq].
    by apply Is_true_true in Hr.
  - intros (Hp & -> & Hr). exists p. split; [done|].
    apply list_elem_of_filter. split; [by apply Is_true_true | done].
Qed.

Lemma elem_of_phrase_pages h d c p :
  p ∈ phrase_pages h d c <-> p ∈ pages_to_search d c /\ phrase_on h d p = true.
Proof.
  unfold phrase_pages. rewrite list_elem_of_filter, Is_true_true. tauto.
Qed.

Lemma exact_pages_strict h d c : StronglySorted Z.lt (exact_pages h d c).
Proof. apply StronglySorted_sublist, pages_to_search_strict. Qed.

(** What the chain returns: [None] exactly when every list it comes to is
    empty, and otherwise a page of the list it stops at. *)
Lemma strategy_chain_cases c n exact partial sequence :
  (strategy_chain c n exact partial sequence = Ok None
   /\ exact = [] /\ ((n < 2)%nat \/ partial = [])
   /\ ((n < 3)%nat \/ sequence = []))
  \/ (exists p, strategy_chain c n exact partial sequence = Ok (Some p)
        /\ (p ∈ exact
            \/ ((2 <= n)%nat /\ p ∈ partial.*1)
            \/ ((3 <= n)%nat /\ p ∈ sequence))).
Proof.
  unfold strategy_chain.
  destruct exact as [|p1 l1].
  2:{ right. destruct (select_elem_of c (p1 :: l1)) as (p & E & Hp); [done|].
      exists p. rewrite E. split; [done | by left]. }
  destruct (decide (2 <= n)%nat) as [H2|H2].
  - destruct partial as [|x2 l2].
    + destruct (decide (3 <= n)%nat) as [H3|H3].
      * destruct sequence as [|p3 l3].
        -- left. repeat split; auto.
        -- right.
           destruct (select_elem_of c (p3 :: l3)) as (p & E & Hp); [done|].
           exists p. rewrite E. split; [done|]. right. right. by split.
      * left. repeat split; auto. left. lia.
    + right.
      destruct (select_elem_of c (sort_by_ratio_desc (x2 :: l2)))
        as (x & E & Hx).
      { intros Hnil. by apply sort_by_ratio_desc_nil_inv in Hnil. }
      exists x.1. rewrite E. split; [done|]. right. left. split; [done|].
      rewrite sort_by_ratio_desc_Permutation in Hx.
      apply list_elem_of_fmap. eauto.
  - destruct (decide (3 <= n)%nat) as [H3|H3]; [lia|].
    left. repeat split; auto; left; lia.
Qed.

Lemma filter_ext_elem_of {A} (P Q : A -> Prop) `{forall x, Decision (P x)}
    `{forall x, Decision (Q x)} (l : list A) :
  (forall x, x ∈ l -> (P x <-> Q x)) -> filter P l = filter Q l.
Proof.
  induction l as [|x l IH]; intros Hl; [done|].
  assert (filter P l = filter Q l) as E.
  { apply IH. intros y Hy. apply Hl. by right. }
  destruct (decide (P x)) as [HP|HP].
  - rewrite !filter_cons_True by (done || by apply Hl; [left|]).
    by rewrite E.
  - rewrite !filter_cons_False; [done| |done].
    intros HQ. apply HP, Hl; [left | done].
Qed.

Lemma str_contains_empty s : str_contains "" s = true.
Proof. by destruct s. Qed.

(** ** More on the Heading Locator *)

(** X1.  Neither the search nor the estimator raises, whatever the heading,
    the corpus (its keys may be any integers), the processed outline and
    the cursor: no subscript leaves its list, no key is missing, [max] is
    not taken of an empty corpus and the division of strategy 2 is not by
    zero. *)
Theorem search_and_estimate_never_raise (heading_text : string)
    (o : list entry) (d : gmap Z string) (c : Z) :
  (exists r, search_heading_in_pdf_content heading_text d c = Ok r)
  /\ (exists p,
        estimate_page_from_surrounding_headings heading_text o d c = Ok p).
Proof. split; [apply search_total | apply estimate_total]. Qed.

(** X2.  A page the search returns is a page of the corpus, is at least 1
    and lies after the cursor, and it passes the test of one of the three
    strategies: the heading occurs on it, or the heading has two or more
    words and at least 7/10 of them occur on it, or the heading has three
    or more words and three consecutive ones occur on it as a phrase. *)
Theorem search_result_sound (heading_text : string) (d : gmap Z string)
    (c p : Z) :
  search_heading_in_pdf_content heading_text d c = Ok (Some p) ->
  is_Some (d !! p) /\ 1 <= p /\ c < p
  /\ (exact_on heading_text d p = true
      \/ ((2 <= length (heading_words heading_text))%nat
          /\ (7 # 10 <= ratio_on heading_text d p)%Q)
      \/ ((3 <= length (heading_words heading_text))%nat
          /\ phrase_on heading_text d p = true)).
Proof.
  intros E. rewrite search_chain in E.
  pose proof (start_page_positive c) as [Hs1 Hs2].
  destruct (strategy_chain_cases c (length (heading_words heading_text))
              (exact_pages heading_text d c) (partial_pages heading_text d c)
              (phrase_pages heading_text d c))
    as [(E' & _)|(q & E' & Hq)]; rewrite E' in E; [discriminate|].
  injection E as ->.
  assert (p ∈ pages_to_search d c /\
          (exact_on heading_text d p = true
           \/ ((2 <= length (heading_words heading_text))%nat
               /\ (7 # 10 <= ratio_on heading_text d p)%Q)
           \/ ((3 <= length (heading_words heading_text))%nat
               /\ phrase_on heading_text d p = true))) as [Hw Ht].
  { destruct Hq as [Hq|[[Hn Hq]|[Hn Hq]]].
    - apply elem_of_exact_pages in Hq as [? ?]. auto.
    - apply list_elem_of_fmap in Hq as ([p' r] & -> & Hq).
      apply elem_of_partial_pages in Hq as (? & -> & Hr).
      split; [done|]. right. left. split; [done|]. by apply Qle_bool_iff.
    - apply elem_of_phrase_pages in Hq as [? ?]. auto. }
  apply elem_of_pages_to_search in Hw as [Hin Hp].
  repeat split; [done | lia | lia | done].
Qed.

(** Pages 0 and -1 hold the heading too, but the page returned is 2. *)
Lemma search_result_sound_witness :
  is_Some (corpus [(-1, "Scope"); (0, "Scope"); (1, "Title"); (2, "Scope")]
             !! 2)
  /\ 1 <= 2.
Proof.
  destruct (search_result_sound "Scope"
              (corpus [(-1, "Scope"); (0, "Scope"); (1, "Title"); (2, "Scope")])
              0 2) as (Hin & Hpos & _).
  - vm_compute. reflexivity.
  - by split.
Defined.

(** X3.  The search returns [None] exactly when no page of the search
    window passes a test the search comes to: the heading occurs on none,
    and, if it has two or more words, fewer than 7/10 of them occur on any,
    and, if it has three or more, no three consecutive ones occur on any as
    a phrase. *)
Theorem search_none_iff (heading_text : string) (d : gmap Z string) (c : Z) :
  search_heading_in_pdf_content heading_text d c = Ok None
  <-> forall p, p ∈ pages_to_search d c ->
        exact_on heading_text d p = false
        /\ ((2 <= length (heading_words heading_text))%nat ->
            Qle_bool (7 # 10) (ratio_on heading_text d p) = false)
        /\ ((3 <= length (heading_words heading_text))%nat ->
            phrase_on heading_text d p = false).
Proof.
  rewrite search_chain.
  set (n := length (heading_words heading_text)).
  split.
  - intros E p Hp.
    destruct (strategy_chain_cases c n (exact_pages heading_text d c)
                (partial_pages heading_text d c)
                (phrase_pages heading_text d c))
      as [(_ & E1 & E2 & E3)|(q & E' & _)]; [|congruence].
    split; [|split].
    + apply not_true_is_false. intros Hon.
      assert (p ∈ exact_pages heading_text d c) as Hin
        by (by apply elem_of_exact_pages).
      rewrite E1 in Hin. by apply not_elem_of_nil in Hin.
    + intros Hn. destruct E2 as [?|E2]; [lia|].
      apply not_true_is_false. intros Hr.
      assert ((p, ratio_on heading_text d p) ∈ partial_pages heading_text d c)
        as Hin by (by apply elem_of_partial_pages).
      rewrite E2 in Hin. by apply not_elem_of_nil in Hin.
    + intros Hn. destruct E3 as [?|E3]; [lia|].
      apply not_true_is_false. intros Hon.
      assert (p ∈ phrase_pages heading_text d c) as Hin
        by (by apply elem_of_phrase_pages).
      rewrite E3 in Hin. by apply not_elem_of_nil in Hin.
  - intros Hall.
    assert (exact_pages heading_text d c = []) as ->.
    { apply filter_nil_iff. intros p Hp Hon. apply Is_true_true in Hon.
      destruct (Hall p Hp) as [E _]. congruence. }
    unfold strategy_chain.
    destruct (decide (2 <= n)%nat) as [H2|H2].
    + assert (partial_pages heading_text d c = []) as ->.
      { unfold partial_pages.
        rewrite (proj2 (filter_nil_iff _ (pages_to_search d c))); [done|].
        intros p Hp Hr. apply Is_true_true in Hr.
        destruct (Hall p Hp) as (_ & E & _). specialize (E H2). congruence. }
      destruct (decide (3 <= n)%nat) as [H3|H3]; [|done].
      assert (phrase_pages heading_text d c = []) as ->; [|done].
      apply filter_nil_iff. intros p Hp Hon. apply Is_true_true in Hon.
      destruct (Hall p Hp) as (_ & _ & E). specialize (E H3). congruence.
    + destruct (decide (3 <= n)%nat) as [H3|H3]; [lia | done].
Qed.

(** X4.  The search reads only the pages of its window: two corpora that
    agree on every page number from the start page on give the same
    result, whatever they hold before it. *)
Theorem search_window_only (heading_text : string) (d1 d2 : gmap Z string)
    (c : Z) :
  (forall p, start_page c <= p -> d1 !! p = d2 !! p) ->
  search_heading_in_pdf_content heading_text d1 c
  = search_heading_in_pdf_content heading_text d2 c.
Proof.
  intros Hagree. rewrite !search_chain.
  assert (pages_to_search d1 c = pages_to_search d2 c) as Hpages.
  { apply ascending_unique; [apply pages_to_search_strict..|].
    intros p. rewrite !elem_of_pages_to_search. split.
    - intros [Hin Hp]. by rewrite <- Hagree.
    - intros [Hin Hp]. by rewrite Hagree. }
  assert (forall p, p ∈ pages_to_search d2 c -> d1 !! p = d2 !! p) as Hlook.
  { intros p Hp. apply elem_of_pages_to_search in Hp as [_ Hp]. auto. }
  f_equal.
  - unfold exact_pages. rewrite Hpages. apply filter_ext_elem_of.
    intros p Hp. unfold exact_on. by rewrite Hlook.
  - unfold partial_pages. rewrite Hpages.
    rewrite (filter_ext_elem_of _
               (fun p => Is_true (Qle_bool (7 # 10) (ratio_on heading_text d2 p)))).
    + apply list_fmap_ext. intros i p Hp. f_equal.
      apply list_elem_of_lookup_2, list_elem_of_filter in Hp as [_ Hp].
      unfold ratio_on. by rewrite Hlook.
    + intros p Hp. unfold ratio_on. by rewrite Hlook.
  - unfold phrase_pages. rewrite Hpages. apply filter_ext_elem_of.
    intros p Hp. unfold phrase_on. by rewrite Hlook.
Qed.

(** With the cursor on page 2, rewriting pages 1 and 2 changes nothing. *)
Lemma search_window_only_witness :
  search_heading_in_pdf_content "Scope"
    (corpus [(1, "Scope"); (2, "Scope"); (3, "The scope")]) 2
  = search_heading_in_pdf_content "Scope"
      (corpus [(1, "x"); (3, "The scope")]) 2.
Proof.
  apply search_window_only. intros p Hp.
  assert (3 <= p) as Hp'.
  { unfold start_page in Hp. rewrite decide_True in Hp by lia. lia. }
  unfold corpus. simpl.
  rewrite (lookup_insert_ne _ 1 p), (lookup_insert_ne _ 2 p),
    (lookup_insert_ne _ 1 p) by lia.
  reflexivity.
Defined.

(** X5.  With a cursor above 0, the search returns the first page after the
    cursor on which the heading occurs, when there is one: later
    occurrences and the other strategies do not matter. *)
Theorem search_next_occurrence (heading_text : string) (d : gmap Z string)
    (c p : Z) :
  0 < c ->
  p ∈ pages_to_search d c ->
  exact_on heading_text d p = true ->
  (forall q, q ∈ pages_to_search d c -> exact_on heading_text d q = true ->
             p <= q) ->
  search_heading_in_pdf_content heading_text d c = Ok (Some p).
Proof.
  intros Hc Hp Hon Hmin. rewrite search_chain.
  pose proof (exact_pages_strict heading_text d c) as Hs.
  assert (p ∈ exact_pages heading_text d c) as Hin
    by (by apply elem_of_exact_pages).
  destruct (exact_pages heading_text d c) as [|a l] eqn:E;
    [by apply not_elem_of_nil in Hin|].
  assert (a = p) as ->.
  { assert (a ∈ exact_pages heading_text d c) as Ha by (rewrite E; left).
    apply elem_of_exact_pages in Ha as [Ha1 Ha2].
    specialize (Hmin a Ha1 Ha2).
    apply elem_of_cons in Hin as [->|Hin]; [done|].
    apply StronglySorted_inv in Hs as [_ Hs].
    rewrite Forall_forall in Hs. specialize (Hs p Hin). lia. }
  unfold strategy_chain. rewrite select_first by lia. reflexivity.
Qed.

(** The heading is on pages 1, 3 and 4; from cursor 1 the search returns
    page 3. *)
Lemma search_next_occurrence_witness :
  search_heading_in_pdf_content "Scope"
    (corpus [(1, "Scope"); (2, "x"); (3, "The scope"); (4, "Scope")]) 1
  = Ok (Some 3).
Proof.
  apply search_next_occurrence.
  - lia.
  - eval_window. in_list.
  - vm_compute. reflexivity.
  - eval_window. intros q Hq Hon. cases_of Hq; [|lia..].
    vm_compute in Hon. discriminate.
Defined.

(** X6.  A heading that the two cleanings reduce to the empty string (one
    made of digits, punctuation and whitespace only) occurs on every page:
    the search selects among all the pages of its window, and returns
    [None] only when the window is empty. *)
Theorem search_blank_heading (heading_text : string) (d : gmap Z string)
    (c : Z) :
  clean_heading_no_numbers heading_text = "" ->
  search_heading_in_pdf_content heading_text d c
  = match pages_to_search d c with
    | [] => Ok None
    | l => p ← select c l; Ok (Some p)
    end.
Proof.
  intros Hblank. rewrite search_chain.
  assert (exact_pages heading_text d c = pages_to_search d c) as ->.
  { unfold exact_pages.
    rewrite (filter_ext_elem_of _ (fun _ => True)).
    - induction (pages_to_search d c) as [|x l IH]; [done|].
      by rewrite filter_cons_True, IH.
    - intros p Hp. split; [done|]. intros _.
      apply pages_to_search_in_corpus in Hp as [content Hc].
      unfold exact_on. rewrite Hc, Hblank.
      by rewrite str_contains_empty. }
  assert (heading_words heading_text = []) as Hw
    by (unfold heading_words; by rewrite Hblank).
  unfold strategy_chain. rewrite Hw. simpl.
  destruct (pages_to_search d c); [|done].
  by repeat case_decide.
Qed.

(** The heading "2.1.3" is located on the second page of any document
    that has two pages. *)
Lemma search_blank_heading_witness :
  search_heading_in_pdf_content "2.1.3"
    (corpus [(1, "Title"); (2, "Foreword"); (3, "Text")]) 0
  = Ok (Some 2).
Proof.
  rewrite search_blank_heading; [|vm_compute; reflexivity].
  vm_compute. reflexivity.
Defined.

(** ** Substrings *)

Lemma str_app_cons (x : ascii) (a b : string) :
  String x a +:+ b = String x (a +:+ b).
Proof. reflexivity. Qed.

Lemma str_app_nil_l (b : string) : "" +:+ b = b.
Proof. reflexivity. Qed.

Lemma str_app_nil_r (a : string) : a +:+ "" = a.
Proof.
  induction a as [|x a IH]; [done|]. by rewrite str_app_cons, IH.
Qed.

Lemma str_app_assoc (a b c : string) : (a +:+ b) +:+ c = a +:+ b +:+ c.
Proof.
  induction a as [|x a IH]; [done|]. by rewrite !str_app_cons, IH.
Qed.

Lemma prefix_app (n h : string) :
  String.prefix n h = true <-> exists b, h = n +:+ b.
Proof.
  revert h. induction n as [|x n IH]; intros h; simpl.
  - split; [eauto | by destruct h].
  - destruct h as [|y h]; simpl.
    + split; [done | intros [b ?]; discriminate].
    + destruct (ascii_dec x y) as [->|Hxy].
      * rewrite IH. split; intros [b E]; exists b.
        -- by rewrite str_app_cons, E.
        -- rewrite str_app_cons in E. congruence.
      * split; [done|]. intros [b E]. rewrite str_app_cons in E. congruence.
Qed.

Lemma str_contains_nil (n : string) :
  str_contains n "" = String.prefix n "".
Proof. unfold str_contains. apply orb_false_r. Qed.

Lemma str_contains_cons (n : string) (y : ascii) (h : string) :
  str_contains n (String y h)
  = String.prefix n (String y h) || str_contains n h.
Proof. reflexivity. Qed.

(** [needle in hay] holds exactly when [hay] is [needle] with something
    before and something after it. *)
Lemma str_contains_app (n h : string) :
  str_contains n h = true <-> exists a b, h = a +:+ n +:+ b.
Proof.
  induction h as [|y h IH].
  - rewrite str_contains_nil, prefix_app. split.
    + intros [b E]. by exists "", b.
    + intros (a & b & E). destruct a; [eauto | discriminate].
  - rewrite str_contains_cons, orb_true_iff, IH, prefix_app. split.
    + intros [[b E]|(a & b & E)].
      * by exists "", b.
      * exists (String y a), b. by rewrite str_app_cons, E.
    + intros (a & b & E). destruct a as [|x a].
      * left. eauto.
      * right. exists a, b. rewrite str_app_cons in E. congruence.
Qed.

Lemma str_contains_trans (a b c : string) :
  str_contains a b = true -> str_contains b c = true ->
  str_contains a c = true.
Proof.
  rewrite !str_contains_app. intros (a1 & a2 & ->) (b1 & b2 & ->).
  exists (b1 +:+ a1), (a2 +:+ b2). by rewrite !str_app_assoc.
Qed.

Lemma str_contains_join (sep w : string) (ws : list string) :
  w ∈ ws -> str_contains w (str_join sep ws) = true.
Proof.
  induction ws as [|x ws IH]; intros Hw; [by apply elem_of_nil in Hw|].
  apply str_contains_app.
  destruct ws as [|y ws].
  - apply list_elem_of_singleton in Hw as ->. exists "", "".
    by rewrite str_app_nil_l, str_app_nil_r.
  - apply elem_of_cons in Hw as [->|Hw].
    + by exists "", (sep +:+ str_join sep (y :: ws)).
    + apply IH, str_contains_app in Hw as (a & b & E).
      exists (x +:+ sep +:+ a), b.
      change (str_join sep (x :: y :: ws))
        with (x +:+ sep +:+ str_join sep (y :: ws)).
      by rewrite E, !str_app_assoc.
Qed.

Lemma phrase_found_iff (words : list string) (content : string) :
  phrase_found words content = true
  <-> exists i, (i + 3 <= length words)%nat
        /\ str_contains (str_join " " (take 3 (drop i words))) content = true.
Proof.
  unfold phrase_found. rewrite existsb_exists. split.
  - intros (i & Hi & E). apply in_seq in Hi. exists i. split; [lia | done].
  - intros (i & Hi & E). exists i. split; [|done]. apply in_seq. lia.
Qed.

Lemma filter_all {A} (P : A -> Prop) `{forall x, Decision (P x)} (l : list A) :
  Forall P l -> filter P l = l.
Proof.
  induction 1 as [|x l Hx _ IH]; [done|].
  by rewrite filter_cons_True, IH.
Qed.

Lemma length_filter_all {A} (P : A -> Prop) `{forall x, Decision (P x)}
    (l : list A) :
  length (filter P l) = length l <-> Forall P l.
Proof.
  split; [|intros Hl; by rewrite filter_all].
  induction l as [|x l IH]; intros E; [constructor|].
  destruct (decide (P x)) as [Hx|Hx].
  - rewrite filter_cons_True in E by done. simpl in E.
    constructor; [done|]. apply IH. lia.
  - rewrite filter_cons_False in E by done. simpl in E.
    pose proof (length_filter P l). lia.
Qed.

Lemma word_matches_bounds (words : list string) (content : string) :
  0 <= word_matches words content <= Z.of_nat (length words).
Proof.
  unfold word_matches.
  pose proof (length_filter (fun w => Is_true (str_contains w content)) words).
  lia.
Qed.

(** The comparison of strategy 2 in integers. *)
Lemma ratio_qualifies (k : Z) (n : nat) :
  (0 < n)%nat ->
  Qle_bool (7 # 10) (k # Z.to_pos (Z.of_nat n)) = true
  <-> 7 * Z.of_nat n <= 10 * k.
Proof.
  intros Hn. rewrite Qle_bool_iff. unfold Qle. simpl.
  rewrite Z2Pos.id by lia. lia.
Qed.

(** X7.  Strategy 3 collects a page of the search window if and only if
    some three consecutive heading words, joined by single spaces, occur as
    one substring of the cleaned page text. *)
Theorem sequence_match_collects (heading_text : string) (d : gmap Z string)
    (c : Z) :
  exists collected,
    sequence_matches (heading_words heading_text) d (pages_to_search d c)
      = Ok collected
    /\ forall p, p ∈ collected <->
         p ∈ pages_to_search d c
         /\ exists content i,
              d !! p = Some content
              /\ (i + 3 <= length (heading_words heading_text))%nat
              /\ str_contains
                   (str_join " " (take 3 (drop i (heading_words heading_text))))
                   (clean_text_for_search content) = true.
Proof.
  exists (phrase_pages heading_text d c). split.
  { apply sequence_matches_filter, pages_to_search_in_corpus. }
  intros p. rewrite elem_of_phrase_pages. unfold phrase_on. split.
  - intros [Hp Hon]. split; [done|].
    destruct (d !! p) as [content|]; [|done].
    apply phrase_found_iff in Hon as (i & Hi & E). eauto.
  - intros [Hp (content & i & -> & Hi & E)]. split; [done|].
    apply phrase_found_iff. eauto.
Qed.

Lemma phrase_implies_overlap h d p :
  (length (heading_words h) <= 4)%nat ->
  phrase_on h d p = true ->
  Qle_bool (7 # 10) (ratio_on h d p) = true.
Proof.
  intros Hlen Hon. unfold phrase_on, ratio_on in *.
  destruct (d !! p) as [content|]; [|done].
  set (words := heading_words h) in *.
  set (cc := clean_text_for_search content) in *.
  apply phrase_found_iff in Hon as (i & Hi & E).
  apply ratio_qualifies; [lia|].
  assert (3 <= word_matches words cc); [|lia].
  unfold word_matches.
  set (P := fun w => Is_true (str_contains w cc)).
  rewrite <- (take_drop i words) at 1.
  rewrite <- (take_drop 3 (drop i words)) at 1.
  rewrite !filter_app, !length_app.
  rewrite (filter_all P (take 3 (drop i words))).
  - rewrite length_take, length_drop. lia.
  - apply Forall_forall. intros w Hw. apply Is_true_true.
    eapply str_contains_trans; [|exact E].
    by apply str_contains_join.
Qed.

(** X8.  Strategy 3 adds nothing for headings of three or four words: a
    page on which three consecutive words occur as a phrase has at least
    3/4 of the words and passes the test of strategy 2.  So the search
    stops at strategy 3 with a candidate only for a heading of five or more
    words. *)
Theorem phrase_needs_five_words (heading_text : string) (d : gmap Z string)
    (c : Z) :
  (forall p,
     (length (heading_words heading_text) <= 4)%nat ->
     phrase_on heading_text d p = true ->
     (7 # 10 <= ratio_on heading_text d p)%Q)
  /\ (forall l,
        candidates heading_text d c 3 l -> l <> [] ->
        (5 <= length (heading_words heading_text))%nat).
Proof.
  split.
  - intros p Hlen Hon. by apply Qle_bool_iff, phrase_implies_overlap.
  - intros l Hc Hl.
    inversion Hc as [| |l' _ Hpart Hw Hseq]; subst.
    pose proof (pages_to_search_in_corpus d c) as Hin.
    rewrite sequence_matches_filter in Hseq by done. injection Hseq as <-.
    destruct Hpart as [?|Hpart]; [lia|].
    rewrite partial_matches_filter in Hpart by (done || lia).
    injection Hpart as Hpart. apply fmap_nil_inv in Hpart.
    destruct (filter (fun p => Is_true (phrase_on heading_text d p))
                (pages_to_search d c)) as [|p l'] eqn:E; [done|].
    assert (p ∈ phrase_pages heading_text d c) as Hp
      by (unfold phrase_pages; rewrite E; left).
    apply elem_of_phrase_pages in Hp as [Hp Hon].
    destruct (decide (length (heading_words heading_text) <= 4)%nat)
      as [Hlen|Hlen]; [|lia].
    exfalso.
    apply (filter_nil_not_elem_of _ _ p Hpart); [|done].
    by apply Is_true_true, phrase_implies_overlap.
Qed.

(** For the four-word heading "The scope of work", a page with the phrase
    "scope of work" has three of the four words. *)
Lemma phrase_needs_five_words_witness :
  Qle (7 # 10)
      (ratio_on "The scope of work" (corpus [(1, "Scope of work, revised")]) 1).
Proof.
  destruct (phrase_needs_five_words "The scope of work"
              (corpus [(1, "Scope of work, revised")]) 0) as [Hpage _].
  apply Hpage.
  - vm_compute. lia.
  - vm_compute. reflexivity.
Defined.

(** X9.  For a heading of two or three words the threshold of strategy 2
    asks for every word: a page passes if and only if each heading word
    occurs in its cleaned text (one word of two is 1/2, two of three are
    2/3, both below 7/10). *)
Theorem overlap_short_heading (heading_text : string) (d : gmap Z string)
    (p : Z) (content : string) :
  (2 <= length (heading_words heading_text) <= 3)%nat ->
  d !! p = Some content ->
  (7 # 10 <= ratio_on heading_text d p)%Q
  <-> Forall (fun w => str_contains w (clean_text_for_search content) = true)
             (heading_words heading_text).
Proof.
  intros Hlen Hc. unfold ratio_on. rewrite Hc.
  rewrite <- Qle_bool_iff, ratio_qualifies by lia.
  pose proof (word_matches_bounds (heading_words heading_text)
                (clean_text_for_search content)) as Hb.
  assert (Forall (fun w => str_contains w (clean_text_for_search content) = true)
                 (heading_words heading_text)
          <-> Forall (fun w => Is_true (str_contains w
                                          (clean_text_for_search content)))
                     (heading_words heading_text)) as ->.
  { rewrite !Forall_forall.
    split; intros Hf w Hw; apply Is_true_true; by apply Hf. }
  pose proof (length_filter_all
                (fun w => Is_true (str_contains w
                                     (clean_text_for_search content)))
                (heading_words heading_text)) as Hall.
  rewrite <- Hall. unfold word_matches in *. lia.
Qed.

(** Two of the three words of "Scope of work" do not reach the threshold. *)
Lemma overlap_short_heading_witness :
  ~ Qle (7 # 10) (ratio_on "Scope of work" (corpus [(1, "Out of work")]) 1).
Proof.
  intros Hr.
  apply (overlap_short_heading "Scope of work" (corpus [(1, "Out of work")]) 1
           "Out of work") in Hr.
  - apply Forall_inv in Hr. vm_compute in Hr. discriminate.
  - vm_compute. lia.
  - reflexivity.
Defined.

(** ** More on the Fallback Estimator *)

Lemma last_outline_page_app l1 e l2 :
  (forall e', e' ∈ l1 -> truthy (page e') = false) ->
  truthy (page e) = true ->
  last_outline_page (l1 ++ e :: l2) = page e.
Proof.
  induction l1 as [|x l1 IH]; intros Hl He; simpl.
  - by rewrite He.
  - rewrite (Hl x) by left. apply IH; [|done].
    intros e' He'. apply Hl. by right.
Qed.

(** X10.  With the cursor at 0 (or below) and an outline that is not
    empty, the estimator takes the page of the most recent entry whose
    page is known, an entry with page [None] or page 0 counting as
    unknown, and returns the page after it, capped by the largest page
    number of the corpus, or by 6 when the corpus is empty. *)
Theorem estimate_from_outline (heading_text : string) (o1 o2 : list entry)
    (e : entry) (d : gmap Z string) (c p : Z) :
  c <= 0 ->
  page e = Some p -> p <> 0 ->
  (forall e', e' ∈ o2 -> truthy (page e') = false) ->
  exists m, max_page d = Ok m
    /\ (d = ∅ -> m = 6)
    /\ (d <> ∅ -> max_key d = Ok m)
    /\ estimate_page_from_surrounding_headings heading_text
         (o1 ++ e :: o2) d c = Ok (Z.min (p + 1) m).
Proof.
  intros Hc Hp Hp0 Ho2.
  destruct (max_page_total d) as [m Em]. exists m.
  split; [done|]. split; [|split].
  - intros ->. rewrite max_page_empty in Em. by injection Em.
  - intros Hd. by rewrite <- max_page_nonempty.
  - assert (truthy (page e) = true) as Ht.
    { rewrite Hp. simpl. apply negb_true_iff, Z.eqb_neq. done. }
    unfold estimate_page_from_surrounding_headings.
    destruct (o1 ++ e :: o2) as [|x l] eqn:E.
    { by destruct o1. }
    rewrite <- E. rewrite decide_False by lia.
    rewrite reverse_app, reverse_cons, <- app_assoc. simpl.
    rewrite last_outline_page_app; [| |done].
    + rewrite Hp in Ht |- *. cbv beta iota. simpl in Ht.
      rewrite Ht, Em. reflexivity.
    + intros e' He'. apply Ho2. by rewrite <- elem_of_reverse.
Qed.

(** The last entry has page 0 and is passed over; the one before has
    page 2, so the estimate is page 3. *)
Lemma estimate_from_outline_witness :
  estimate_page_from_surrounding_headings "Results"
    [Entry "H1" "Scope" (Some 2); Entry "H2" "Methods" (Some 0)]
    (corpus [(1, "a"); (2, "b"); (3, "c"); (4, "d")]) 0
  = Ok 3.
Proof.
  destruct (estimate_from_outline "Results" []
              [Entry "H2" "Methods" (Some 0)] (Entry "H1" "Scope" (Some 2))
              (corpus [(1, "a"); (2, "b"); (3, "c"); (4, "d")]) 0 2)
    as (m & Em & _ & _ & E).
  - lia.
  - reflexivity.
  - lia.
  - intros e' He'. cases_of He'. reflexivity.
  - vm_compute in Em. injection Em as <-. exact E.
Defined.

(** ** The Page Corpus *)

Lemma foldl_enumerate_lookup (l : list string) (i : Z) (m : gmap Z string)
    (k : Z) :
  foldl (fun acc '(i, page_content) => <[i + 1 := page_content]> acc) m
        (enumerate_from i l) !! k
  = if decide (i + 1 <= k <= i + Z.of_nat (length l))
    then l !! Z.to_nat (k - i - 1)
    else m !! k.
Proof.
  revert i m. induction l as [|x l IH]; intros i m.
  - simpl. rewrite decide_False by lia. done.
  - cbn [enumerate_from foldl]. rewrite IH.
    cbn [length]. rewrite Nat2Z.inj_succ.
    destruct (decide (k = i + 1)) as [->|Hk].
    + rewrite decide_False by lia. rewrite decide_True by lia.
      rewrite lookup_insert_eq.
      by replace (i + 1 - i - 1) with 0 by lia.
    + rewrite lookup_insert_ne by lia.
      destruct (decide (i + 1 + 1 <= k <= i + 1 + Z.of_nat (length l)))
        as [Hin|Hout].
      * rewrite decide_True by lia.
        replace (Z.to_nat (k - i - 1)) with (S (Z.to_nat (k - (i + 1) - 1)))
          by lia.
        done.
      * rewrite decide_False by lia. done.
Qed.

(** X11.  The corpus built from the loaded documents holds the [k]-th
    document (counted from 1) under page number [k], and nothing under any
    other number; when the load fails it is empty. *)
Theorem corpus_lookup (documents : list string) (k : Z) :
  extract_pdf_content_by_pages (Some documents) !! k
  = (if decide (1 <= k <= Z.of_nat (length documents))
     then documents !! Z.to_nat (k - 1)
     else None)
  /\ extract_pdf_content_by_pages None !! k = None.
Proof.
  split; [|apply lookup_empty].
  unfold extract_pdf_content_by_pages. rewrite foldl_enumerate_lookup.
  rewrite lookup_empty.
  replace (k - 0 - 1) with (k - 1) by lia.
  destruct (decide (1 <= k <= Z.of_nat (length documents))) as [H|H].
  - by rewrite decide_True by lia.
  - by rewrite decide_False by lia.
Qed.

Lemma corpus_lookup_is_Some (documents : list string) (k : Z) :
  is_Some (extract_pdf_content_by_pages (Some documents) !! k)
  <-> 1 <= k <= Z.of_nat (length documents).
Proof.
  unfold extract_pdf_content_by_pages. rewrite foldl_enumerate_lookup.
  rewrite lookup_empty. split.
  - intros Hs. case_decide; [lia | by destruct Hs].
  - intros Hk. rewrite decide_True by lia.
    apply lookup_lt_is_Some. lia.
Qed.

(** X12.  The page numbers of the built corpus are 1, 2, ..., n for n
    loaded documents, without a gap, and its largest page number is n. *)
Theorem corpus_contiguous (documents : list string) :
  sorted_keys (extract_pdf_content_by_pages (Some documents))
  = (fun i : nat => Z.of_nat i + 1) <$> seq 0 (length documents)
  /\ (documents <> [] ->
      max_key (extract_pdf_content_by_pages (Some documents))
      = Ok (Z.of_nat (length documents))).
Proof.
  split.
  - apply ascending_unique.
    + apply ascending_NoDup_strict;
        [apply sorted_keys_ascending | apply NoDup_sorted_keys].
    + generalize 0%nat. induction (length documents) as [|n IH]; intros s.
      { constructor. }
      simpl. constructor; [apply IH|].
      apply Forall_forall. intros x Hx.
      apply list_elem_of_fmap in Hx as (j & -> & Hj).
      apply elem_of_seq in Hj. lia.
    + intros k. rewrite elem_of_sorted_keys, corpus_lookup_is_Some.
      rewrite list_elem_of_fmap. split.
      * intros Hk. exists (Z.to_nat (k - 1)). split; [lia|].
        apply elem_of_seq. lia.
      * intros (j & -> & Hj). apply elem_of_seq in Hj. lia.
  - intros Hne.
    assert (0 < length documents)%nat as Hlen
      by (destruct documents; [done | simpl; lia]).
    destruct (max_key_spec (extract_pdf_content_by_pages (Some documents)))
      as (m & Em & Hin & Hmax).
    + intros E.
      assert (is_Some (extract_pdf_content_by_pages (Some documents) !! 1))
        as Hs by (apply corpus_lookup_is_Some; lia).
      rewrite E, lookup_empty in Hs. by destruct Hs.
    + rewrite Em. f_equal.
      apply corpus_lookup_is_Some in Hin.
      assert (Z.of_nat (length documents) <= m); [|lia].
      apply Hmax, corpus_lookup_is_Some. lia.
Qed.

(** ** More on the Outline Builder *)

Lemma build_outline_total d tags o c :
  exists o' c',
    build_outline d tags (o, c) = Ok (o ++ o', c')
    /\ (fun e => (level e, text e)) <$> o'
       = (fun t => (name_upper (name t), get_text_strip t))
           <$> filter (fun t => 2 < str_len (get_text_strip t)) tags
    /\ Forall (fun e => is_Some (page e)) o'.
Proof.
  revert o c. induction tags as [|t tags IH]; intros o c.
  { exists [], c. rewrite app_nil_r. repeat split; constructor. }
  change (build_outline d (t :: tags) (o, c))
    with (process_heading d t (o, c) ≫= build_outline d tags).
  destruct (meaningful (get_text_strip t)) eqn:Hm.
  - destruct (process_heading_append d t o c Hm) as (p & how & _ & ->).
    simpl.
    destruct (IH (o ++ [Entry (name_upper (name t)) (get_text_strip t)
                          (Some p)]) (advance c p))
      as (o' & c' & -> & Hlt & Hpg).
    exists (Entry (name_upper (name t)) (get_text_strip t) (Some p) :: o'), c'.
    split; [by rewrite <- app_assoc|]. split.
    + rewrite filter_cons_True by (by apply meaningful_spec).
      rewrite !fmap_cons. f_equal. exact Hlt.
    + constructor; [by eexists | done].
  - rewrite process_heading_skip by done. simpl.
    destruct (IH o c) as (o' & c' & -> & Hlt & Hpg).
    exists o', c'. split; [done|]. split; [|done].
    rewrite filter_cons_False; [done|].
    intros Hlen. apply meaningful_spec in Hlen. congruence.
Qed.

(** X13.  For every list of heading elements and every corpus the pass
    raises nothing, and its outline lists, in order, exactly the heading
    elements whose stripped text is longer than 2 characters, each with its
    level, its stripped text and a page that is not [None]. *)
Theorem outline_lists_meaningful_headings (title : string)
    (d : gmap Z string) (tags : list heading_tag) :
  exists o,
    extract_headings_from_html title d tags = Ok (HeadingsData title o)
    /\ (fun e => (level e, text e)) <$> o
       = (fun t => (name_upper (name t), get_text_strip t))
           <$> filter (fun t => 2 < str_len (get_text_strip t)) tags
    /\ Forall (fun e => is_Some (page e)) o.
Proof.
  destruct (build_outline_total d tags [] 0) as (o & c & E & Hlt & Hpg).
  exists o. split; [|done].
  unfold extract_headings_from_html. by rewrite E.
Qed.

(** X14.  The pass is sequential: the outline of the first headings of a
    list is the beginning of the outline of the whole list, so that the
    page of a heading does not depend on the headings after it. *)
Theorem outline_of_prefix (title : string) (d : gmap Z string)
    (tags1 tags2 : list heading_tag) :
  exists o1 o2,
    extract_headings_from_html title d tags1 = Ok (HeadingsData title o1)
    /\ extract_headings_from_html title d (tags1 ++ tags2)
       = Ok (HeadingsData title (o1 ++ o2)).
Proof.
  unfold extract_headings_from_html. rewrite build_outline_app.
  destruct (build_outline_total d tags1 [] 0) as (o1 & c1 & -> & _).
  simpl.
  destruct (build_outline_total d tags2 o1 c1) as (o2 & c2 & -> & _).
  by exists o1, o2.
Qed.

(** The invariant of the pass over a corpus whose page numbers are all at
    least 1, with [m] its largest page number (6 for the empty corpus):
    the pages appended so far ascend, lie between 1 and [m], and none is
    above the cursor. *)
Lemma build_outline_ascending d m tags o c ps :
  (forall k, is_Some (d !! k) -> 1 <= k) ->
  max_page d = Ok m ->
  page <$> o = Some <$> ps ->
  StronglySorted Z.le ps ->
  Forall (fun p => 1 <= p <= m) ps ->
  Forall (fun p => p <= c) ps ->
  0 <= c <= m -> (o <> [] -> 1 <= c) -> (o = [] -> c = 0) ->
  exists o' c' ps',
    build_outline d tags (o, c) = Ok (o', c')
    /\ page <$> o' = Some <$> ps'
    /\ StronglySorted Z.le ps'
    /\ Forall (fun p => 1 <= p <= m) ps'.
Proof.
  intros Hkeys Hm. revert o c ps.
  induction tags as [|t tags IH]; intros o c ps Ho Hs Hb Hc Hcm Hc1 Hc0.
  { exists o, c, ps. by repeat split. }
  change (build_outline d (t :: tags) (o, c))
    with (process_heading d t (o, c) ≫= build_outline d tags).
  destruct (meaningful (get_text_strip t)) eqn:Hmf.
  2:{ rewrite process_heading_skip by done. simpl. by eapply IH. }
  destruct (process_heading_append d t o c Hmf) as (p & how & Er & ->).
  simpl.
  assert (1 <= m) as Hm1.
  { destruct (decide (d = ∅)) as [->|Hd].
    - rewrite max_page_empty in Hm. injection Hm as <-. lia.
    - rewrite max_page_nonempty in Hm by done.
      destruct (max_key_spec d Hd) as (m' & Em & Hin & _).
      rewrite Em in Hm. injection Hm as <-. by apply Hkeys. }
  assert (c <= p /\ 1 <= p <= m /\ advance c p = p) as (Hcp & Hp & Hadv).
  { destruct (resolve_page_cases (get_text_strip t) o d c)
      as [(q & Es & Er')|(q & Es & Ee & Er')];
      rewrite Er' in Er; injection Er as <- <-.
    - apply search_in_window, elem_of_pages_to_search in Es as [Hin Hq].
      pose proof (start_page_positive c) as [Hs1 Hs2].
      assert (d <> ∅) as Hd.
      { intros ->. rewrite lookup_empty in Hin. by destruct Hin. }
      rewrite max_page_nonempty in Hm by done.
      destruct (max_key_spec d Hd) as (m' & Em & _ & Hmax).
      rewrite Em in Hm. injection Hm as <-.
      specialize (Hmax q Hin).
      split; [lia|]. split; [lia|]. apply advance_located; lia.
    - unfold estimate_page_from_surrounding_headings in Ee.
      destruct o as [|e o].
      + injection Ee as <-. rewrite (Hc0 eq_refl).
        split; [lia|]. split; [lia|]. reflexivity.
      + specialize (Hc1 ltac:(done)).
        rewrite decide_True in Ee by lia. rewrite Hm in Ee. simpl in Ee.
        injection Ee as <-.
        split; [lia|]. split; [lia|].
        unfold advance. simpl.
        destruct (Z.min (c + 1) m =? 0) eqn:E0; [lia|]. simpl.
        destruct (c <? Z.min (c + 1) m) eqn:E1; [done|].
        apply Z.ltb_ge in E1. lia. }
  rewrite Hadv.
  apply (IH _ p (ps ++ [p])).
  - by rewrite !fmap_app, Ho.
  - apply StronglySorted_app_2; [|done|repeat constructor].
    intros x1 x2 Hx1 Hx2. apply list_elem_of_singleton in Hx2 as ->.
    rewrite Forall_forall in Hc. specialize (Hc x1 Hx1). lia.
  - apply Forall_app. split; [done|]. constructor; [lia | constructor].
  - apply Forall_app. split; [|constructor; [lia | constructor]].
    eapply Forall_impl; [exact Hc|]. simpl. intros; lia.
  - lia.
  - intros _. lia.
  - intros Hnil. by apply app_nil in Hnil as [_ ?].
Qed.

(** X15.  Over a corpus whose page numbers are all at least 1, the pages
    of the outline never decrease from one entry to the next, and each lies
    between 1 and the largest page number of the corpus (6 for the empty
    corpus). *)
Theorem outline_pages_ascend (title : string) (d : gmap Z string)
    (tags : list heading_tag) :
  (forall k, is_Some (d !! k) -> 1 <= k) ->
  exists o ps m,
    extract_headings_from_html title d tags = Ok (HeadingsData title o)
    /\ max_page d = Ok m
    /\ page <$> o = Some <$> ps
    /\ StronglySorted Z.le ps
    /\ Forall (fun p => 1 <= p <= m) ps.
Proof.
  intros Hkeys. destruct (max_page_total d) as [m Hm].
  assert (1 <= m) as Hm1.
  { destruct (decide (d = ∅)) as [->|Hd].
    - rewrite max_page_empty in Hm. injection Hm as <-. lia.
    - rewrite max_page_nonempty in Hm by done.
      destruct (max_key_spec d Hd) as (m' & Em & Hin & _).
      rewrite Em in Hm. injection Hm as <-. by apply Hkeys. }
  destruct (build_outline_ascending d m tags [] 0 [] Hkeys Hm)
    as (o & c & ps & E & Ho & Hs & Hb);
    [done | constructor | constructor | constructor | lia | done | done |].
  exists o, ps, m. split; [|done].
  unfold extract_headings_from_html. by rewrite E.
Qed.

(** Three headings over three pages: located on 2, estimated on 3, and
    estimated on 3 again, the last page. *)
Lemma outline_pages_ascend_witness :
  exists o ps m,
    extract_headings_from_html "Report"
      (corpus [(1, "Report"); (2, "Scope of work"); (3, "Closing")])
      [HeadingTag h1 ["Scope"]; HeadingTag h2 ["Untitled"];
       HeadingTag h2 ["Appendix"]]
    = Ok (HeadingsData "Report" o)
    /\ max_page (corpus [(1, "Report"); (2, "Scope of work"); (3, "Closing")])
       = Ok m
    /\ page <$> o = Some <$> ps
    /\ StronglySorted Z.le ps
    /\ Forall (fun p => 1 <= p <= m) ps.
Proof.
  apply outline_pages_ascend. intros k Hk.
  apply elem_of_sorted_keys in Hk. vm_compute sorted_keys in Hk.
  cases_of Hk; lia.
Defined.

(** X16.  For the corpora the program builds, whatever the load gives: the
    pass returns an outline whose pages never decrease and lie between 1
    and the number of loaded documents, or between 1 and 6 when no
    document was loaded. *)
Theorem outline_pages_of_built_corpus (title : string)
    (loaded : option (list string)) (tags : list heading_tag) :
  exists o ps,
    extract_headings_from_html title (extract_pdf_content_by_pages loaded) tags
    = Ok (HeadingsData title o)
    /\ page <$> o = Some <$> ps
    /\ StronglySorted Z.le ps
    /\ Forall (fun p => 1 <= p <= match loaded with
                                  | Some ((_ :: _) as documents) =>
                                      Z.of_nat (length documents)
                                  | _ => 6
                                  end) ps.
Proof.
  set (d := extract_pdf_content_by_pages loaded).
  set (m := match loaded with
            | Some ((_ :: _) as documents) => Z.of_nat (length documents)
            | _ => 6
            end).
  assert (forall k, is_Some (d !! k) -> 1 <= k) as Hkeys.
  { intros k Hk. subst d. destruct loaded as [documents|].
    - apply corpus_lookup_is_Some in Hk. lia.
    - simpl in Hk. rewrite lookup_empty in Hk. by destruct Hk. }
  assert (max_page d = Ok m) as Hm.
  { subst d m. destruct loaded as [[|x documents]|]; [done| |done].
    assert (1 <= 1 <= Z.of_nat (length (x :: documents))) as H1
      by (cbn [length]; lia).
    apply corpus_lookup_is_Some in H1.
    assert (extract_pdf_content_by_pages (Some (x :: documents)) <> ∅) as Hd.
    { intros E. rewrite E, lookup_empty in H1. by destruct H1. }
    rewrite max_page_nonempty by done.
    destruct (max_key_spec _ Hd) as (m & Em & Hin & Hmax).
    rewrite Em. f_equal.
    apply corpus_lookup_is_Some in Hin.
    assert (Z.of_nat (length (x :: documents)) <= m); [|lia].
    apply Hmax, corpus_lookup_is_Some. cbn [length]. lia. }
  assert (1 <= m) as Hm1.
  { subst m. destruct loaded as [[|x documents]|]; cbn [length]; lia. }
  destruct (build_outline_ascending d m tags [] 0 [] Hkeys Hm)
    as (o & c & ps & E & Ho & Hs & Hb);
    [done | constructor | constructor | constructor | lia | done | done |].
  exists o, ps. split; [|done].
  unfold extract_headings_from_html. by rewrite E.
Qed.

(** The invariant of the logged pass for any corpus: the cursor is not
    below 0 and not below any page appended so far, and a located entry
    lies after every entry before it. *)
Lemma process_logged_strict d t lg c lg' c' :
  0 <= c ->
  (forall e p how, (e, how) ∈ lg -> page e = Some p -> p <= c) ->
  (forall i j e1 e2 how p1 p2,
     (i < j)%nat -> lg !! i = Some (e1, how) ->
     lg !! j = Some (e2, Located) ->
     page e1 = Some p1 -> page e2 = Some p2 -> p1 < p2) ->
  process_logged d t (lg, c) = Ok (lg', c') ->
  0 <= c'
  /\ (forall e p how, (e, how) ∈ lg' -> page e = Some p -> p <= c')
  /\ (forall i j e1 e2 how p1 p2,
        (i < j)%nat -> lg' !! i = Some (e1, how) ->
        lg' !! j = Some (e2, Located) ->
        page e1 = Some p1 -> page e2 = Some p2 -> p1 < p2).
Proof.
  intros Hc Hle Hstrict E. unfold process_logged in E.
  destruct (meaningful (get_text_strip t)); [|by injection E as <- <-].
  set (txt := get_text_strip t) in *. set (lv := name_upper (name t)) in *.
  assert (forall p, c <= advance c p /\ p <= advance c p) as Hadv.
  { intros p. unfold advance. simpl.
    destruct (p =? 0) eqn:E0; simpl.
    - apply Z.eqb_eq in E0. lia.
    - destruct (c <? p) eqn:E1;
        [apply Z.ltb_lt in E1 | apply Z.ltb_ge in E1]; lia. }
  assert (exists p how,
            resolve_page txt lg.*1 d c = Ok (p, how)
            /\ (how = Located -> c < p)) as (p & how & Er & Hloc).
  { destruct (resolve_page_cases txt lg.*1 d c)
      as [(p & Es & Er)|(p & _ & _ & Er)].
    - exists p, Located. split; [done|]. intros _.
      apply search_in_window, elem_of_pages_to_search in Es as [_ Hp].
      pose proof (start_page_positive c). lia.
    - exists p, Estimated. by split. }
  rewrite Er in E. simpl in E. injection E as <- <-.
  destruct (Hadv p) as [Hadv1 Hadv2].
  split; [lia|]. split.
  - intros e q how' Hin Hq. apply elem_of_app in Hin as [Hin|Hin].
    + specialize (Hle e q how' Hin Hq). lia.
    + apply list_elem_of_singleton in Hin. injection Hin as -> ->.
      simpl in Hq. injection Hq as <-. lia.
  - intros i j e1 e2 how' p1 p2 Hij H1 H2 Hp1 Hp2.
    destruct (decide (j < length lg)%nat) as [Hj|Hj].
    + rewrite lookup_app_l in H1 by lia. rewrite lookup_app_l in H2 by lia.
      eauto.
    + assert (j = length lg) as ->.
      { apply lookup_lt_Some in H2. rewrite length_app in H2. simpl in H2.
        lia. }
      rewrite lookup_app_l in H1 by lia.
      rewrite lookup_app_r in H2 by lia.
      replace (length lg - length lg)%nat with 0%nat in H2 by lia.
      injection H2 as <- ->. simpl in Hp2. injection Hp2 as <-.
      assert (p1 <= c).
      { eapply Hle; [|exact Hp1]. eapply list_elem_of_lookup_2. exact H1. }
      specialize (Hloc eq_refl). lia.
Qed.

Lemma outline_lists_total_aux d tags :
  exists lg c,
    build_logged d tags ([], 0) = Ok (lg, c)
    /\ forall i j e1 e2 how p1 p2,
         (i < j)%nat -> lg !! i = Some (e1, how) ->
         lg !! j = Some (e2, Located) ->
         page e1 = Some p1 -> page e2 = Some p2 -> p1 < p2.
Proof.
  assert (forall tags lg c,
            0 <= c ->
            (forall e p how, (e, how) ∈ lg -> page e = Some p -> p <= c) ->
            (forall i j e1 e2 how p1 p2,
               (i < j)%nat -> lg !! i = Some (e1, how) ->
               lg !! j = Some (e2, Located) ->
               page e1 = Some p1 -> page e2 = Some p2 -> p1 < p2) ->
            exists lg' c',
              build_logged d tags (lg, c) = Ok (lg', c')
              /\ forall i j e1 e2 how p1 p2,
                   (i < j)%nat -> lg' !! i = Some (e1, how) ->
                   lg' !! j = Some (e2, Located) ->
                   page e1 = Some p1 -> page e2 = Some p2 -> p1 < p2) as Hgen.
  { clear tags. induction tags as [|t tags IH]; intros lg c Hc Hle Hst.
    { exists lg, c. by split. }
    change (build_logged d (t :: tags) (lg, c))
      with (process_logged d t (lg, c) ≫= build_logged d tags).
    destruct (process_logged d t (lg, c)) as [[lg1 c1]|e] eqn:E1.
    - destruct (process_logged_strict d t lg c lg1 c1 Hc Hle Hst E1)
        as (Hc1 & Hle1 & Hst1).
      simpl. by apply IH.
    - exfalso. unfold process_logged in E1.
      destruct (meaningful _); [|done].
      destruct (resolve_page_cases (get_text_strip t) lg.*1 d c)
        as [(p & _ & Er)|(p & _ & _ & Er)]; rewrite Er in E1; done. }
  apply Hgen; [lia | |].
  - intros e p how Hin. by apply elem_of_nil in Hin.
  - intros i j e1 e2 how p1 p2 _ H1. by rewrite lookup_nil in H1.
Qed.

(** X17.  In the outline of any pass over any corpus, an entry whose page
    the search gave carries a page strictly above the page of every entry
    before it: the search never puts a heading on a page already given to
    an earlier heading, nor before one. *)
Theorem located_after_all_before (title : string) (d : gmap Z string)
    (tags : list heading_tag) :
  exists logged,
    extract_logged d tags = Ok logged
    /\ extract_headings_from_html title d tags
       = Ok (HeadingsData title logged.*1)
    /\ forall i j e1 e2 how p1 p2,
         (i < j)%nat -> logged !! i = Some (e1, how) ->
         logged !! j = Some (e2, Located) ->
         page e1 = Some p1 -> page e2 = Some p2 -> p1 < p2.
Proof.
  destruct (outline_lists_total_aux d tags) as (lg & c & E & Hstrict).
  exists lg. split; [|split; [|done]].
  - unfold extract_logged. by rewrite E.
  - rewrite extract_logged_outline. unfold extract_logged. by rewrite E.
Qed.

(** Three loaded documents: pages 1, 2, 3, the largest page number 3. *)
Lemma corpus_contiguous_witness :
  max_key (extract_pdf_content_by_pages (Some ["Title"; "Scope"; "End"]))
  = Ok 3.
Proof.
  destruct (corpus_contiguous ["Title"; "Scope"; "End"]) as [_ Hmax].
  apply Hmax. discriminate.
Defined.

(** A two-word heading with one word on the only page: no test passes. *)
Lemma search_none_iff_witness :
  search_heading_in_pdf_content "Scope statement"
    (corpus [(1, "The scope of the work")]) 0 = Ok None.
Proof.
  apply search_none_iff. eval_window. intros p Hp. cases_of Hp.
  split; [vm_compute; reflexivity|]. split.
  - intros _. vm_compute. reflexivity.
  - intros Hw. vm_compute in Hw. lia.
Defined.
